(** * Brain-Activity-Monitor: the real-time two-stage classification loop

A shallow embedding of [src/UI/real_time.py] (the polling loop, window
selection, filter selection, signal conditioning, feature extraction and
telemetry) and of the feature extractor of the offline trainer
[src/classifier/action_model/action_classifier.py].

Conventions.
- Samples are IEEE binary64 numbers ([float], the kernel's primitive
  floats), as numpy holds them.
- Code of numpy, scipy, pandas and scikit-learn that only computes numbers
  is not re-implemented: it is the interface [Numerics]; the pickled
  models are the interface [Artifacts]; the clock, the random generator
  and number formatting are the interface [Env].  What those libraries do
  besides computing (argument checks that raise, shapes) is written out
  where the program depends on it.
- A Python exception is a value [exn]; code that can raise returns
  [result A]; the main loop threads the interpreter state [Sys] through a
  state-and-exception monad [M]. *)

From Stdlib Require Import Floats.PrimFloat DecimalString DecimalNat.
From stdpp Require Import gmap strings list sorting.

Set Default Proof Using "Type".

(** ** Python values shared by all modules *)

Inductive exn_class :=
  | ValueError | KeyError | IndexError | AxisError | TypeError
  | EmptyDataError | ParserError | OSError.

Record exn := Exn { exn_kind : exn_class; exn_msg : string }.

Definition result (A : Type) : Type := exn + A.

Definition raise {A} (k : exn_class) (msg : string) : result A := inl (Exn k msg).

Global Instance result_ret : MRet result := λ A x, inr x.
Global Instance result_bind : MBind result := λ A B f r,
  match r with inl e => inl e | inr x => f x end.

(** The newline character that [print] appends. *)
Definition nl : string := String (Ascii.ascii_of_nat 10) EmptyString.

(** ** numpy arrays of rank two *)

Module Numpy.

(** A two-dimensional [ndarray]: its [shape] and its rows.  The shape is kept
    beside the data because numpy keeps it when a dimension is empty. *)
Record matrix := Matrix {
  n_rows : nat;
  n_cols : nat;
  rows : list (list float)
}.

Definition shape (m : matrix) : nat * nat := (n_rows m, n_cols m).

Definition wf_matrix (m : matrix) : Prop :=
  length (rows m) = n_rows m ∧ Forall (λ r, length r = n_cols m) (rows m).

(** [m[:, a:b]] for [0 <= a <= b]: numpy clips both bounds to the axis. *)
Definition slice_cols (a b : nat) (m : matrix) : matrix :=
  Matrix (n_rows m) (b `min` n_cols m - a `min` n_cols m)
         (map (λ r, take (b - a) (drop a r)) (rows m)).

(** What [np.array(rows)] builds from a Python list of equally long
    one-dimensional arrays: a matrix, except that the empty list gives the
    one-dimensional empty array, of shape [(0,)]. *)
Inductive ndarray :=
  | Empty1D
  | Mat (m : matrix).

Definition np_array (l : list (list float)) : ndarray :=
  match l with
  | [] => Empty1D
  | r :: _ => Mat (Matrix (length l) (length r) l)
  end.

(** [x[mask]] with a boolean mask as long as [x]. *)
Definition mask_select {A} (mask : list bool) (x : list A) : list A :=
  omap (λ p : bool * A, if p.1 then Some p.2 else None) (zip mask x).

End Numpy.

(** ** The numerical libraries, the models and the environment *)

(** numpy / scipy routines that only compute.  [welch x fs nperseg] is
    [scipy.signal.welch], returning [(freqs, psd)]; [skew_omit] and
    [kurtosis_omit] are [scipy.stats.skew] and [kurtosis] with
    [nan_policy='omit']; [butter order low high] is
    [scipy.signal.butter(order, [low, high], btype='band')], which validates
    the critical frequencies and returns [(b, a)]; [filtfilt_kernel] is the
    forward-backward recursion of [scipy.signal.filtfilt] once its arguments
    have been accepted. *)
Class Numerics := {
  welch : list float → float → nat → list float * list float;
  np_trapezoid : list float → list float → float;
  np_mean : list float → float;
  np_nanmean : list float → float;
  np_var : list float → float;
  np_std : list float → float;
  skew : list float → float;
  kurtosis : list float → float;
  skew_omit : list float → float;
  kurtosis_omit : list float → float;
  butter : nat → float → float → result (list float * list float);
  filtfilt_kernel : list float → list float → list float → list float
}.

(** What the program relies on from scipy beyond the values: a band-pass
    design of order [n] with [0 < low < high < 1] succeeds and has [2n+1]
    numerator and denominator coefficients, and zero-phase filtering returns
    as many samples as it was given. *)
Class NumericsLaws (N : Numerics) : Prop := {
  butter_band : ∀ n low high,
    (0 <? low)%float = true → (low <? high)%float = true →
    (high <? 1)%float = true →
    ∃ b a, butter n low high = inr (b, a) ∧
           length b = 2 * n + 1 ∧ length a = 2 * n + 1;
  filtfilt_kernel_length : ∀ b a x, length (filtfilt_kernel b a x) = length x
}.

(** The two pickled models.  [filter_clf_predict X] and [clf_predict X] are
    [predict(X)[0]] on a one-row feature matrix [X];
    [filter_label_encoder_inverse_transform c] is [inverse_transform([c])[0]].
    Each may raise (scikit-learn validates its input). *)
Class Artifacts := {
  filter_clf_predict : list (list float) → result Z;
  filter_label_encoder_inverse_transform : Z → result string;
  clf_predict : list (list float) → result Z
}.

(** The environment of one process: the [k]-th reading of [time.time()], the
    [k]-th raw draw of the random generator, and [f"{x:.2f}"]. *)
Class Env := {
  clock : nat → float;
  entropy : nat → nat;
  format_2f : float → string
}.

(** ** scipy.signal.filtfilt *)

Module Scipy.
Section scipy.
  Context {N : Numerics}.

(** The default [padlen] is [3 * max(len(a), len(b))]; the input must be
    strictly longer, or [filtfilt] raises [ValueError]. *)
Definition padlen (b a : list float) : nat := 3 * (length a `max` length b).

Definition filtfilt (b a x : list float) : result (list float) :=
  if decide (length x ≤ padlen b a)
  then raise ValueError "The length of the input vector x must be greater than padlen."
  else mret (filtfilt_kernel b a x).

End scipy.
End Scipy.

(** ** src/UI/real_time.py: filtering, filter selection, features *)

Module RealTime.
Import Numpy.

(** A filter function as [choose_filter] hands it out: [(signal, fs)] to the
    filtered signal. *)
Definition filter_fn : Type := list float → float → result (list float).

Section stages.
  Context {N : Numerics} {A : Artifacts}.

(** [0.1], the lower edge of the blink band, as binary64 reads it. *)
Definition one_tenth : float := 0x1.999999999999ap-4%float.

Definition bandpass_filter (signal : list float) (fs lowcut highcut : float)
    (order : nat) : result (list float) :=
  let nyq := (0.5 * fs)%float in
  let low := (lowcut / nyq)%float in
  let high := (highcut / nyq)%float in
  ba ← butter order low high;
  Scipy.filtfilt ba.1 ba.2 signal.

(** The keyword default [order=4], which every caller takes. *)
Definition default_order : nat := 4.

Definition filter_biting : filter_fn := λ signal fs,
  bandpass_filter signal fs 20 50 default_order.
Definition filter_blink : filter_fn := λ signal fs,
  bandpass_filter signal fs one_tenth 4 default_order.
Definition filter_eyebrow : filter_fn := λ signal fs,
  bandpass_filter signal fs 25 40 default_order.
Definition filter_jaw : filter_fn := λ signal fs,
  bandpass_filter signal fs 20 50 default_order.

Definition compute_band_power (signal : list float) (fs lowcut highcut : float)
    : float :=
  let '(freqs, psd) := welch signal fs (256 `min` length signal) in
  let band_idx := map (λ f, (lowcut <=? f)%float && (f <=? highcut)%float) freqs in
  np_trapezoid (mask_select band_idx psd) (mask_select band_idx freqs).

Definition avg_high_freq_power (snippet : matrix) (fs : float) : float :=
  np_mean (map (λ channel, compute_band_power channel fs 20 50) (rows snippet)).

Definition avg_low_freq_power (snippet : matrix) (fs : float) : float :=
  np_mean (map (λ channel, compute_band_power channel fs one_tenth 4) (rows snippet)).

(** [high / low if low != 0 else np.inf]: on numpy scalars the division
    itself never raises. *)
Definition power_ratio (avg_high avg_low : float) : float :=
  if negb (avg_low =? 0)%float then (avg_high / avg_low)%float else infinity.

(** [extract_filter_features] on a window of binary64 numbers.  The window
    of a file without a data row is not one: pandas reads it as an array of
    Python objects with no timepoint, and on that array [np.var] (line 56)
    raises [ZeroDivisionError].  Here such a window passes this function and
    is stopped by [filtfilt] a few lines later, still inside
    [apply_filter_to_snippet] and before anything is printed; the class of
    that exception is therefore not claimed anywhere, and what is stated of
    the ratio feature is stated for windows with a timepoint. *)
Definition extract_filter_features (snippet : matrix) (fs : float) : list float :=
  let avg_variance := np_mean (map np_var (rows snippet)) in
  let avg_skew := np_nanmean (map skew_omit (rows snippet)) in
  let avg_kurtosis := np_nanmean (map kurtosis_omit (rows snippet)) in
  let avg_high := avg_high_freq_power snippet fs in
  let avg_low := avg_low_freq_power snippet fs in
  [avg_variance; avg_skew; avg_kurtosis; avg_high; avg_low;
   power_ratio avg_high avg_low].

(** The dictionary of [choose_filter]. *)
Definition mapping : gmap string filter_fn :=
  <["Biting" := filter_biting]>
    (<["Blink" := filter_blink]>
       (<["Eyebrow" := filter_eyebrow]>
          (<["Jaw Clench" := filter_jaw]> ∅))).

Definition choose_filter (snippet : matrix) (fs : float)
    : result (filter_fn * string) :=
  let features := [extract_filter_features snippet fs] in  (* reshape(1, -1) *)
  pred_class ← filter_clf_predict features;
  filter_name ← filter_label_encoder_inverse_transform pred_class;
  let filter_func := default filter_jaw (mapping !! filter_name) in
  mret (filter_func, filter_name).

(** The list comprehension and [np.array] of [apply_filter_to_snippet]. *)
Definition condition (filter_func : filter_fn) (snippet : matrix) (fs : float)
    : result ndarray :=
  filtered ← mapM (λ channel, filter_func channel fs) (rows snippet);
  mret (np_array filtered).

Definition apply_filter_to_snippet (snippet : matrix) (fs : float)
    : result (ndarray * string) :=
  chosen ← choose_filter snippet fs;
  filtered ← condition chosen.1 snippet fs;
  mret (filtered, chosen.2).

(** [extract_features_from_sample] on a two-dimensional sample.  The loop
    extends [feature_vector] by two entries per channel; the four
    [axis=1] statistics follow.  [reshape(1, -1)] makes the result a
    one-row matrix. *)
Definition extract_features_from_sample (eeg_sample : matrix) (sfreq : float)
    : list (list float) :=
  let feature_vector :=
    foldl (λ feature_vector channel,
             let '(freqs, psd) := welch channel sfreq (256 `min` length channel) in
             feature_vector ++ [np_mean psd; np_std psd])
          [] (rows eeg_sample) in
  let feature_vector := feature_vector ++ map np_mean (rows eeg_sample) in
  let feature_vector := feature_vector ++ map np_std (rows eeg_sample) in
  let feature_vector := feature_vector ++ map skew (rows eeg_sample) in
  let feature_vector := feature_vector ++ map kurtosis (rows eeg_sample) in
  [feature_vector].

(** The same call on whatever [np.array] returned: on the one-dimensional
    empty array the loop runs zero times and [mean(axis=1)] raises. *)
Definition extract_features_from_array (eeg_sample : ndarray) (sfreq : float)
    : result (list (list float)) :=
  match eeg_sample with
  | Mat m => mret (extract_features_from_sample m sfreq)
  | Empty1D => raise AxisError "axis 1 is out of bounds for array of dimension 1"
  end.

End stages.

(** *** The interpreter state and the monad of the main loop *)

(** What the process does to the outside, in order. *)
Inductive event :=
  | EvRead (file : string)      (* [pd.read_csv] is called on the file *)
  | EvPrint (text : string)     (* text written to standard output *)
  | EvTime (now : float)        (* [time.time] returned [now] *)
  | EvRandint (drawn : nat)     (* [random.randint] returned [drawn] *)
  | EvSleep (seconds : nat).    (* [time.sleep] *)

(** The module-level variables [processed_files] and [predicted_action], the
    events so far, and how often the clock and the generator were asked. *)
Record Sys := MkSys {
  processed_files : gset string;
  predicted_action : string;
  trace : list event;
  clock_reads : nat;
  rng_draws : nat
}.

Definition M (T : Type) : Type := Sys → result T * Sys.

Global Instance M_ret : MRet M := λ T x st, (inr x, st).
Global Instance M_bind : MBind M := λ T U f c st,
  match c st with
  | (inr x, st') => f x st'
  | (inl e, st') => (inl e, st')
  end.

(** A pure computation that may raise, run inside the loop. *)
Definition lift {T} (r : result T) : M T := λ st, (r, st).

Definition emit (ev : event) : M unit := λ st,
  (inr (), MkSys (processed_files st) (predicted_action st) (trace st ++ [ev])
                 (clock_reads st) (rng_draws st)).

(** What [print(text, flush=True)] writes: the text and a newline. *)
Definition line (text : string) : string := text +:+ nl.

Definition print (text : string) : M unit := emit (EvPrint (line text)).

Definition sleep (seconds : nat) : M unit := emit (EvSleep seconds).

Definition mark_processed (file : string) : M unit := λ st,
  (inr (), MkSys ({[file]} ∪ processed_files st) (predicted_action st) (trace st)
                 (clock_reads st) (rng_draws st)).

Definition set_predicted_action (label : string) : M unit := λ st,
  (inr (), MkSys (processed_files st) label (trace st)
                 (clock_reads st) (rng_draws st)).

Fixpoint for_each {T} (l : list T) (body : T → M unit) : M unit :=
  match l with
  | [] => mret ()
  | x :: l' => _ ← body x; for_each l' body
  end.

(** The texts written to standard output, one per [print]. *)
Definition printed (tr : list event) : list string :=
  omap (λ ev, match ev with EvPrint s => Some s | _ => None end) tr.

(** The files [pd.read_csv] was called on, in order. *)
Definition reads (tr : list event) : list string :=
  omap (λ ev, match ev with EvRead f => Some f | _ => None end) tr.

(** *** pandas *)

(** A parsed CSV file: the header and the data rows. *)
Record DataFrame := MkDataFrame {
  columns : list string;
  values : list (list float)
}.

Definition wf_frame (df : DataFrame) : Prop :=
  Forall (λ r, length r = length (columns df)) (values df).

(** [df.iloc[:, 0].values]: positional access to a column that is not there
    raises [IndexError]. *)
Definition iloc_col0 (df : DataFrame) : result (list float) :=
  match columns df with
  | [] => raise IndexError "single positional indexer is out-of-bounds"
  | _ :: _ => mret (map (λ r, default nan (r !! 0)) (values df))
  end.

(** [df.iloc[:, 1:].to_numpy().T]: one row per channel column, one column per
    data row. *)
Definition iloc_from1_T (df : DataFrame) : matrix :=
  let n_channels := length (columns df) - 1 in
  Matrix n_channels (length (values df))
         (map (λ j, map (λ r, default nan (r !! j)) (values df)) (seq 1 n_channels)).

(** *** The main loop *)

Section loop.
  Context {N : Numerics} {A : Artifacts} {E : Env}.

Definition time_time : M float := λ st,
  let now := clock (clock_reads st) in
  (inr now,
   MkSys (processed_files st) (predicted_action st) (trace st ++ [EvTime now])
         (S (clock_reads st)) (rng_draws st)).

(** [random.randint(a, b)]: some integer of [a..b], both ends included. *)
Definition randint (a b : nat) : M nat := λ st,
  if decide (b < a) then (raise ValueError "empty range for randrange()", st)
  else let drawn := a + entropy (rng_draws st) `mod` (b - a + 1) in
       (inr drawn,
        MkSys (processed_files st) (predicted_action st)
              (trace st ++ [EvRandint drawn])
              (clock_reads st) (S (rng_draws st))).

(** [int(256 * 2.5)]. *)
Definition snippet_length : nat := 640.

Definition sfreq : float := 256.

(** Lines 134-141: the analysis window. *)
Definition select_window (eeg_data : matrix) : M matrix :=
  let '(n_channels, n_timepoints) := shape eeg_data in
  if decide (snippet_length < n_timepoints) then
    start_idx ← randint 0 (n_timepoints - snippet_length);
    mret (slice_cols start_idx (start_idx + snippet_length) eeg_data)
  else mret eeg_data.

(** The dictionary of class indices of the action model. *)
Definition action_mapping : gmap Z string :=
  <[0%Z := "Biting"]> (<[1%Z := "Blink"]> (<[2%Z := "Eyebrow"]>
    (<[3%Z := "Jaw Clench"]> ∅))).

Definition lookup_action (predicted_numeric : Z) : result string :=
  match action_mapping !! predicted_numeric with
  | Some label => mret label
  | None => raise KeyError "predicted_numeric[0]"
  end.

(** Lines 132-167: the body of the [for] loop after a successful read. *)
Definition process_file (selected_file : string) (df : DataFrame) : M unit :=
  timestamps ← lift (iloc_col0 df);
  let eeg_data := iloc_from1_T df in
  snippet ← select_window eeg_data;
  start_time ← time_time;
  filtered ← lift (apply_filter_to_snippet snippet sfreq);
  let '(snippet, chosen_filter) := filtered in
  _ ← print ("Chosen Filter: " +:+ chosen_filter);
  features ← lift (extract_features_from_array snippet sfreq);
  predicted_numeric ← lift (clf_predict features);
  predicted_action ← lift (lookup_action predicted_numeric);
  _ ← set_predicted_action predicted_action;
  _ ← print ("Predicted Action: " +:+ predicted_action);
  end_time ← time_time;
  let latency_ms := ((end_time - start_time) * 1000)%float in
  _ ← print ("End-to-end processing latency: " +:+ format_2f latency_ms +:+ " ms" +:+ nl);
  mark_processed selected_file.

(** What one pass of [while True] sees of the intake directory: the result
    of [os.listdir] and, for each name, what [pd.read_csv] makes of the file. *)
Record Poll := MkPoll {
  listing : gset string;
  read_csv : string → result DataFrame
}.

(** [sorted(new_files)]: ascending, by code units. *)
Definition sorted (s : gset string) : list string :=
  merge_sort String.le (elements s).

(** Lines 124-167: one iteration of the [for] loop. *)
Definition attempt (p : Poll) (selected_file : string) : M unit :=
  _ ← emit (EvRead selected_file);
  match read_csv p selected_file with
  | inl e =>
      (* except Exception as e: print(...); continue *)
      print ("Error reading file " +:+ selected_file +:+ " : " +:+ exn_msg e)
  | inr df => process_file selected_file df
  end.

(** Lines 120-169: one iteration of [while True]. *)
Definition poll (p : Poll) : M unit := λ st,
  let current_files := listing p in
  let new_files := current_files ∖ processed_files st in
  (_ ← (if decide (new_files ≠ ∅)
        then for_each (sorted new_files) (attempt p)
        else mret ());
   sleep 1) st.

(** Line 103: the state when the loop is entered. *)
Definition startup (initial_listing : gset string) : Sys :=
  MkSys initial_listing "None" [] 0 0.

(** The first [length polls] iterations of [while True]; an exception that
    leaves an iteration ends the process. *)
Definition run (polls : list Poll) : M unit := for_each polls poll.

End loop.
End RealTime.

(** ** src/classifier/action_model/action_classifier.py *)

Module Trainer.
Import Numpy.
Section trainer.
  Context {N : Numerics}.

(** [extract_features] on a batch of samples (an array of shape
    [(n_samples, n_channels, n_timepoints)]). *)
Definition extract_features (eeg_data : list matrix) (sfreq : float)
    : list (list float) :=
  foldl (λ features sample,
    let feature_vector :=
      foldl (λ feature_vector channel,
               let '(freqs, psd) := welch channel sfreq (256 `min` length channel) in
               let feature_vector := feature_vector ++ [np_mean psd] in
               feature_vector ++ [np_std psd])
            [] (rows sample) in
    let feature_vector := feature_vector ++ map np_mean (rows sample) in
    let feature_vector := feature_vector ++ map np_std (rows sample) in
    let feature_vector := feature_vector ++ map skew (rows sample) in
    let feature_vector := feature_vector ++ map kurtosis (rows sample) in
    features ++ [feature_vector])
  [] eeg_data.

End trainer.
End Trainer.

(** ** Vocabulary of the properties *)

Module Spec.
Import Numpy RealTime.

(** The closed enumeration of conditioning filters. *)
Inductive FilterKind := Biting | Blink | Eyebrow | JawClench.

(** The name under which the label codec and [choose_filter] know a kind. *)
Definition kind_name (k : FilterKind) : string :=
  match k with
  | Biting => "Biting" | Blink => "Blink"
  | Eyebrow => "Eyebrow" | JawClench => "Jaw Clench"
  end.

(** The pass band of a kind, in Hz. *)
Definition passband (k : FilterKind) : float * float :=
  match k with
  | Biting => (20, 50) | Blink => (one_tenth, 4)
  | Eyebrow => (25, 40) | JawClench => (20, 50)
  end%float.

(** The filter function of the program for a kind. *)
Definition kind_filter `{Numerics} (k : FilterKind) : filter_fn :=
  match k with
  | Biting => filter_biting | Blink => filter_blink
  | Eyebrow => filter_eyebrow | JawClench => filter_jaw
  end.

Definition filter_names : list string := kind_name <$> [Biting; Blink; Eyebrow; JawClench].

(** A computation that raises a [ValueError] whatever the numerical
    libraries compute, as long as they keep to [NumericsLaws]. *)
Definition always_raises_ValueError {T} (c : Numerics → result T) : Prop :=
  ∀ N, NumericsLaws N → ∃ msg, c N = raise ValueError msg.

(** [quiet f st st']: between the states nothing was read from the intake
    directory, and at most [f] was marked processed. *)
Definition quiet (f : string) (st st' : Sys) : Prop :=
  processed_files st ⊆ processed_files st' ∧
  processed_files st' ⊆ {[f]} ∪ processed_files st ∧
  ∃ evs, trace st' = trace st ++ evs ∧ reads evs = [].

(** [keeps R c]: whatever [c] returns or raises, it takes a state to an
    [R]-related one. *)
Definition keeps {T} (R : Sys → Sys → Prop) (c : M T) : Prop :=
  ∀ st, R st (c st).2.

(** [extends st st' fresh]: [st'] continues [st], having marked more files
    and read only files that satisfy [fresh]. *)
Definition extends (st st' : Sys) (fresh : string → Prop) : Prop :=
  processed_files st ⊆ processed_files st' ∧
  ∃ evs, trace st' = trace st ++ evs ∧ ∀ f, f ∈ reads evs → fresh f.

(** The spectral density [welch] estimates for a channel. *)
Definition psd_of `{Numerics} (sfreq : float) (channel : list float) : list float :=
  (welch channel sfreq (256 `min` length channel)).2.

(** The action feature vector in closed form: two spectral entries per
    channel, then four blocks of per-channel statistics. *)
Definition layout `{Numerics} (sfreq : float) (channels : list (list float))
    : list float :=
  (channels ≫= λ channel,
     [np_mean (psd_of sfreq channel); np_std (psd_of sfreq channel)])
  ++ (np_mean <$> channels) ++ (np_std <$> channels)
  ++ (skew <$> channels) ++ (kurtosis <$> channels).

End Spec.

(** ** A closed instance of the interfaces

Small stand-ins for the libraries, the models and the environment, on
which the model can be run and the hypotheses of the theorems be met. *)

Module Demo.
Import Numpy RealTime.

Definition total (l : list float) : float := foldr PrimFloat.add 0%float l.

Definition numerics : Numerics := {|
  welch := λ x fs nperseg, (take nperseg x, take nperseg x);
  np_trapezoid := λ y x, total y;
  np_mean := total;
  np_nanmean := total;
  np_var := total;
  np_std := total;
  skew := total;
  kurtosis := total;
  skew_omit := total;
  kurtosis_omit := total;
  butter := λ n low high, inr (replicate (2 * n + 1) 1%float, replicate (2 * n + 1) 1%float);
  filtfilt_kernel := λ b a x, x
|}.

(** A filter model that always answers class 1, decoded as [name]. *)
Definition artifacts (name : string) : Artifacts := {|
  filter_clf_predict := λ _, inr 1%Z;
  filter_label_encoder_inverse_transform := λ _, inr name;
  clf_predict := λ _, inr 1%Z
|}.

(** The clock reads 100 s, then 100.5 s. *)
Definition env : Env := {|
  clock := λ k, match k with 0 => 100 | _ => 100.5 end%float;
  entropy := λ k, 7 * k + 45;
  format_2f := λ x, if (x =? 500)%float then "500.00" else "?"
|}.

Definition channel_30 : list float := replicate 30 1%float.
Definition window_30 : matrix := Matrix 1 30 [channel_30].
Definition window_700 : matrix := Matrix 2 700 [replicate 700 1%float; replicate 700 2%float].
(** Four channels of 27 samples, and a window of no channel. *)
Definition window_27 : matrix := Matrix 4 27 (replicate 4 (replicate 27 1%float)).
Definition window_no_channel : matrix := Matrix 0 30 [].

(** A recording of 30 samples of one channel. *)
Definition frame_30 : DataFrame :=
  MkDataFrame ["timestamps"; "TP9"] (replicate 30 [0; 1]%float).

(** A file that holds the header row and nothing else. *)
Definition frame_header_only : DataFrame :=
  MkDataFrame ["timestamps"; "TP9"; "AF7"; "AF8"; "TP10"; "Right AUX"] [].

Definition poll_of (file : string) (content : result DataFrame) : Poll :=
  MkPoll {[file]} (λ _, content).

(** An intake directory with one file that pandas cannot parse (an empty
    file). *)
Definition poll_unreadable : Poll :=
  poll_of "buffer_01.csv" (raise EmptyDataError "No columns to parse from file").

Definition poll_header_only : Poll :=
  poll_of "buffer_01.csv" (inr frame_header_only).

Definition poll_30 : Poll := poll_of "buffer_01.csv" (inr frame_30).

End Demo.

(** ** Further vocabulary and sample inputs *)

Module Ledger.
Import Numpy RealTime.

(** [accounted st st']: [st'] continues [st], no file has left the consumed
    set, and every file that entered it was read in between. *)
Definition accounted (st st' : Sys) : Prop :=
  ∃ evs, trace st' = trace st ++ evs ∧
         processed_files st ⊆ processed_files st' ∧
         ∀ f, f ∈ processed_files st' → f ∈ processed_files st ∨ f ∈ reads evs.

(** The line the [except] branch prints for a file and its exception. *)
Definition error_line (file : string) (e : exn) : string :=
  line ("Error reading file " +:+ file +:+ " : " +:+ exn_msg e).

(** A poll whose only new file is [file]. *)
Definition only_new (p : Poll) (st : Sys) (file : string) : Prop :=
  listing p ∖ processed_files st = {[file]}.

End Ledger.

Module Samples.
Import Numpy RealTime.

(** Models that answer filter class 1, decoded as [name], and action class
    [c]. *)
Definition artifacts_class (name : string) (c : Z) : Artifacts := {|
  filter_clf_predict := λ _, inr 1%Z;
  filter_label_encoder_inverse_transform := λ _, inr name;
  clf_predict := λ _, inr c
|}.

(** A recording of 20 samples of two channels. *)
Definition frame_20 : DataFrame :=
  MkDataFrame ["timestamps"; "TP9"; "AF7"] (replicate 20 [0; 1; 2]%float).

(** A directory with two files that cannot be parsed. *)
Definition poll_two_unreadable : Poll :=
  MkPoll {["buffer_02.csv"; "buffer_01.csv"]}
         (λ _, raise EmptyDataError "No columns to parse from file").

(** Training samples: one channel of two and of three timepoints, and two
    channels of two timepoints. *)
Definition sample_1x2 : matrix := Matrix 1 2 [[1; 2]%float].
Definition sample_1x3 : matrix := Matrix 1 3 [[3; 4; 5]%float].
Definition sample_2x2 : matrix := Matrix 2 2 [[1; 2]; [3; 4]]%float.

End Samples.

(** ** src/classifier/filter_model/filter_classifier.py *)

Module FilterTrainer.
Import Numpy.
Section filter_trainer.
Context {N : Numerics}.

(** [np.trapz] is numpy's older name of [np.trapezoid]. *)
Definition compute_band_power (signal : list float) (fs lowcut highcut : float)
    : float :=
  let '(freqs, psd) := welch signal fs (256 `min` length signal) in
  let band_idx := map (λ f, (lowcut <=? f)%float && (f <=? highcut)%float) freqs in
  np_trapezoid (mask_select band_idx psd) (mask_select band_idx freqs).

Definition extract_filter_features (snippet : matrix) (fs : float) : list float :=
  let avg_variance := np_mean (map np_var (rows snippet)) in
  let avg_skew := np_nanmean (map skew_omit (rows snippet)) in
  let avg_kurtosis := np_nanmean (map kurtosis_omit (rows snippet)) in
  let avg_high_freq_power :=
    np_mean (map (λ channel, compute_band_power channel fs 20 50) (rows snippet)) in
  let avg_low_freq_power :=
    np_mean (map (λ channel, compute_band_power channel fs RealTime.one_tenth 4)
                 (rows snippet)) in
  let power_ratio :=
    if negb (avg_low_freq_power =? 0)%float
    then (avg_high_freq_power / avg_low_freq_power)%float else infinity in
  [avg_variance; avg_skew; avg_kurtosis; avg_high_freq_power; avg_low_freq_power;
   power_ratio].

(** [X_features]: one feature row per snippet of the data set. *)
Definition X_features (X : list matrix) (fs : float) : list (list float) :=
  map (λ sample, extract_filter_features sample fs) X.

End filter_trainer.

(** The dictionary from action labels to filter names. *)
Definition filter_mapping : gmap string string :=
  <["jaw" := "Jaw Clench"]> (<["bite" := "Biting"]> (<["blink" := "Blink"]>
    (<["eyebrow" := "Eyebrow"]> ∅))).

(** [[filter_mapping[label.lower()] for label in y]], for [str.lower] given
    as [lower]: a label that is no key raises [KeyError]. *)
Definition filter_labels (lower : string → string) (y : list string)
    : result (list string) :=
  mapM (λ label, match filter_mapping !! lower label with
                 | Some name => mret name
                 | None => raise KeyError (lower label)
                 end) y.

End FilterTrainer.

(** ** standardize_length of the two data loaders

    [action_dataloader.py] and [filter_dataloader.py] define the same
    function. *)

Module Loader.
Import Numpy.

(** [np.pad(sample, ((0, 0), (0, pad_width)), mode="constant")]. *)
Definition np_pad_cols (pad_width : nat) (m : matrix) : matrix :=
  Matrix (n_rows m) (n_cols m + pad_width)
         (map (λ r, r ++ replicate pad_width 0%float) (rows m)).

(** The body of the loop of [standardize_length]. *)
Definition standardize_sample (target_length : nat) (sample : matrix) : matrix :=
  let '(n_channels, n_timepoints) := shape sample in
  if decide (target_length < n_timepoints) then
    slice_cols 0 target_length sample
  else
    let pad_width := target_length - n_timepoints in
    np_pad_cols pad_width sample.

(** [np.array] of a list of matrices: a three-dimensional array when all
    shapes agree, and [ValueError] (inhomogeneous shape) otherwise. *)
Definition np_array3 (l : list matrix) : result (list matrix) :=
  match l with
  | [] => mret []
  | m :: _ =>
      if decide (Forall (λ m', shape m' = shape m) l) then mret l
      else raise ValueError "setting an array element with a sequence"
  end.

Definition standardize_length (data_list : list matrix) (target_length : nat)
    : result (list matrix) :=
  let standardized_data :=
    foldl (λ standardized_data sample,
             standardized_data ++ [standardize_sample target_length sample])
          [] data_list in
  np_array3 standardized_data.

(** [min(sample.shape[1] for sample in all_data)]. *)
Definition min_timepoints (all_data : list matrix) : result nat :=
  match all_data with
  | [] => raise ValueError "min() arg is an empty sequence"
  | sample :: rest => mret (foldl (λ m s, m `min` n_cols s) (n_cols sample) rest)
  end.

(** The two lines of [dataloader] that bring all samples to the length of the
    shortest. *)
Definition standardize_to_shortest (all_data : list matrix) : result (list matrix) :=
  target ← min_timepoints all_data;
  standardize_length all_data target.

End Loader.

(** ** src/classifier/record_data.py: naming the next recording

    File names are byte strings; [\d] and [int] are taken on ASCII digits,
    which is what they are on names made of ASCII characters. *)

Module Recorder.

Definition is_digit (c : Ascii.ascii) : bool :=
  (48 <=? Ascii.nat_of_ascii c) && (Ascii.nat_of_ascii c <=? 57).

(** All characters are ASCII. *)
Fixpoint is_ascii (s : string) : bool :=
  match s with
  | EmptyString => true
  | String c s' => (Ascii.nat_of_ascii c <? 128) && is_ascii s'
  end.

(** All characters are digits. *)
Fixpoint all_digits (s : string) : bool :=
  match s with
  | EmptyString => true
  | String c s' => is_digit c && all_digits s'
  end.

(** The text that remains when [p] is cut off the front of [s]. *)
Fixpoint strip_prefix (p s : string) : option string :=
  match p, s with
  | EmptyString, _ => Some s
  | String a p', String b s' => if Ascii.eqb a b then strip_prefix p' s' else None
  | String _ _, EmptyString => None
  end.

(** The longest run of digits at the front of [s], and what follows it. *)
Fixpoint span_digits (s : string) : string * string :=
  match s with
  | String c s' =>
      if is_digit c
      then let '(digits, tail) := span_digits s' in (String c digits, tail)
      else (EmptyString, s)
  | EmptyString => (EmptyString, EmptyString)
  end.

(** [int(text)] on a string of digits. *)
Definition int_of_digits (text : string) : option nat :=
  Nat.of_uint <$> NilEmpty.uint_of_string text.

(** [pattern.match(file)] for the pattern [re.escape(prefix) + "_(\d+)\.csv$"],
    and [int(match.group(1))] when it matches.  [$] matches at the end of the
    name and just before a final newline. *)
Definition match_number (prefix file : string) : option nat :=
  match strip_prefix (prefix +:+ "_") file with
  | None => None
  | Some rest =>
      let '(digits, tail) := span_digits rest in
      if decide (digits ≠ EmptyString ∧ (tail = ".csv" ∨ tail = ".csv" +:+ nl))
      then int_of_digits digits
      else None
  end.

(** [f"{n:02d}"]: decimal, with a leading zero below ten. *)
Definition format_02d (n : nat) : string :=
  let digits := NilEmpty.string_of_uint (Nat.to_uint n) in
  if String.length digits <? 2 then "0" +:+ digits else digits.

(** The name of recording number [n]. *)
Definition file_name (prefix : string) (n : nat) : string :=
  prefix +:+ "_" +:+ format_02d n +:+ ".csv".

(** The loop of [get_next_filename] over [os.listdir(directory)]. *)
Definition max_num (listing : list string) (prefix : string) : nat :=
  foldl (λ max_num file,
           match match_number prefix file with
           | Some num => if decide (max_num < num) then num else max_num
           | None => max_num
           end)
        0 listing.

Definition get_next_filename (listing : list string) (prefix : string) : string :=
  let new_num := max_num listing prefix + 1 in
  file_name prefix new_num.

(** [a] comes strictly before [b] in the order of [sorted]. *)
Definition sorts_before (a b : string) : Prop := String.le a b ∧ a ≠ b.

(** The part of a file name after the prefix. *)
Definition name_suffix (n : nat) : string := "_" +:+ format_02d n +:+ ".csv".

(** Whether the suffixes of all numbers below [bound] compare as the numbers
    do. *)
Definition suffixes_ordered (bound : nat) : bool :=
  forallb (λ m, forallb (λ n, match String.compare (name_suffix n) (name_suffix m) with
                              | Lt => true
                              | _ => false
                              end)
                        (seq 0 m))
          (seq 0 bound).

(** Whether the suffix of 100 compares below the suffixes of 11 to 99. *)
Definition hundred_before_eleven : bool :=
  forallb (λ m, match String.compare (name_suffix 100) (name_suffix m) with
                | Lt => true
                | _ => false
                end)
          (seq 11 89).

End Recorder.

(** ** src/main.py: reading the classifier's output *)

Module Gui.

(** [sub in s]. *)
Fixpoint contains (sub s : string) : bool :=
  String.prefix sub s ||
  match s with
  | EmptyString => false
  | String _ s' => contains sub s'
  end.

(** [s.split(sep)] for a non-empty [sep]: [skip] characters of a separator
    are still to be passed over, [cur] is the piece read so far. *)
Fixpoint split_go (sep : string) (skip : nat) (cur : string) (s : string)
    : list string :=
  match s with
  | EmptyString => [cur]
  | String c s' =>
      match skip with
      | S k => split_go sep k cur s'
      | 0 =>
          if String.prefix sep s
          then cur :: split_go sep (String.length sep - 1) EmptyString s'
          else split_go sep 0 (cur +:+ String c EmptyString) s'
      end
  end.

Definition split (sep s : string) : list string := split_go sep 0 EmptyString s.

(** ASCII white space, which [str.strip()] removes. *)
Definition is_space (c : Ascii.ascii) : bool :=
  let n := Ascii.nat_of_ascii c in
  ((9 <=? n) && (n <=? 13)) || ((28 <=? n) && (n <=? 32)).

Fixpoint lstrip (s : string) : string :=
  match s with
  | String c s' => if is_space c then lstrip s' else s
  | EmptyString => EmptyString
  end.

Definition strip (s : string) : string :=
  String.rev (lstrip (String.rev (lstrip s))).

(** The dictionary from predicted actions to commands of the car. *)
Definition command_mapping : gmap string string :=
  <["Biting" := "bite"]> (<["Blink" := "blink"]> (<["Eyebrow" := "brow"]>
    (<["Jaw Clench" := "jaw"]> ∅))).

(** What handling one line of output does: the line is logged, the label of
    the window may be set, a command may be sent. *)
Record handled := Handled {
  logged : string;
  label_text : option string;
  command_sent : option string
}.

(** The body of the loop of [handle_classifier_output]. *)
Definition handle_line (line : string) : handled :=
  if contains "Predicted Action:" line then
    let parts := split "Predicted Action:" line in
    if decide (1 < length parts) then
      let action := strip (default EmptyString (parts !! 1)) in
      let command_to_send := default EmptyString (command_mapping !! action) in
      Handled line (Some ("Predicted Action: " +:+ action))
              (if decide (command_to_send ≠ EmptyString) then Some command_to_send else None)
    else Handled line None None
  else Handled line None None.

(** src/arduino/send_rc_car_cmd.py: the commands [sendCmdToArduinoCar]
    passes on to the car. *)
Definition accepted_commands : list string := ["jaw"; "brow"; "bite"; "blink"; EmptyString].

End Gui.

(** ** src/UI/settings_window.py: the latest file of the buffer

    As for the recorder, [\d] and [int] are taken on ASCII digits; the
    property below is stated for directories of ASCII file names, where
    Python's [re] and [int] see the same digits. *)

Module Settings.
Import Recorder.

(** [s.endswith(suffix)]. *)
Definition ends_with (suffix s : string) : bool :=
  String.prefix (String.rev suffix) (String.rev s).

(** A match of [buffer_(\d+)\.csv] at the front of [s], as a number. *)
Definition number_here (s : string) : option nat :=
  match strip_prefix "buffer_" s with
  | None => None
  | Some rest =>
      let '(digits, tail) := span_digits rest in
      if decide (digits ≠ EmptyString) then
        if String.prefix ".csv" tail then int_of_digits digits else None
      else None
  end.

(** [re.search(r"buffer_(\d+)\.csv", filename)]: the leftmost match. *)
Fixpoint search_number (filename : string) : option nat :=
  match number_here filename with
  | Some n => Some n
  | None =>
      match filename with
      | EmptyString => None
      | String _ rest => search_number rest
      end
  end.

Definition extract_num (filename : string) : nat :=
  default 0 (search_number filename).

(** [list.sort(key=...)]: ascending by key, and stable. *)
Fixpoint insert_by_key {X} (key : X → nat) (x : X) (l : list X) : list X :=
  match l with
  | [] => [x]
  | y :: l' =>
      if decide (key x ≤ key y) then x :: y :: l' else y :: insert_by_key key x l'
  end.

Definition sort_by_key {X} (key : X → nat) (l : list X) : list X :=
  foldr (insert_by_key key) [] l.

(** The files [_get_latest_buffer_file] considers. *)
Definition is_buffer_file (f : string) : bool :=
  String.prefix "buffer_" f && ends_with ".csv" f.

(** [_get_latest_buffer_file] over the listing of an existing buffer
    directory. *)
Definition get_latest_buffer_file (listing : list string) : option string :=
  let files := filter (λ f, is_buffer_file f = true) listing in
  match files with
  | [] => None
  | _ :: _ => last (sort_by_key extract_num files)
  end.

End Settings.

(** * Properties *)

(** ** Filter selection and conditioning *)

Section filters.
  Import Numpy RealTime Spec.
  Context {N : Numerics} {A : Artifacts}.

Lemma mapping_kind (k : FilterKind) : mapping !! kind_name k = Some (kind_filter k).
Proof. by destruct k. Qed.

Lemma mapping_unlisted (name : string) :
  name ∉ filter_names → mapping !! name = None.
Proof.
  unfold filter_names. simpl. rewrite !not_elem_of_cons.
  intros (? & ? & ? & ? & _). unfold mapping.
  by rewrite !lookup_insert_ne, lookup_empty.
Qed.

(** Whatever the name, the chosen function is one of the four. *)
Lemma mapping_default (name : string) :
  ∃ k, default filter_jaw (mapping !! name) = kind_filter k.
Proof.
  destruct (decide (name ∈ filter_names)) as [Hin|Hout].
  - unfold filter_names in Hin. apply list_elem_of_fmap in Hin as (k & -> & _).
    exists k. by rewrite mapping_kind.
  - exists JawClench. by rewrite mapping_unlisted.
Qed.

Lemma kind_filter_passband (k : FilterKind) signal fs :
  kind_filter k signal fs =
  bandpass_filter signal fs (passband k).1 (passband k).2 4.
Proof. by destruct k. Qed.

Lemma choose_filter_ok snippet fs c name :
  filter_clf_predict [extract_filter_features snippet fs] = inr c →
  filter_label_encoder_inverse_transform c = inr name →
  choose_filter snippet fs = inr (default filter_jaw (mapping !! name), name).
Proof. intros Hc Hn. unfold choose_filter. simpl. rewrite Hc. simpl. by rewrite Hn. Qed.

(** C9.  When the label codec decodes the predicted class to a name that is
    none of "Biting", "Blink", "Eyebrow", "Jaw Clench", [choose_filter] does
    not fail: it returns the jaw-clench filter, the 4th-order band pass
    20-50 Hz, together with the decoded name. *)
Theorem choose_filter_fallback snippet fs c name :
  filter_clf_predict [extract_filter_features snippet fs] = inr c →
  filter_label_encoder_inverse_transform c = inr name →
  name ∉ ["Biting"; "Blink"; "Eyebrow"; "Jaw Clench"] →
  choose_filter snippet fs = inr (filter_jaw, name) ∧
  ∀ signal fs', filter_jaw signal fs' = bandpass_filter signal fs' 20 50 4.
Proof.
  intros Hc Hn Hout. split; [|done].
  rewrite (choose_filter_ok _ _ _ _ Hc Hn).
  by rewrite (mapping_unlisted name Hout).
Qed.

Lemma mapM_result_ok {X Y} (f : X → result Y) (g : X → Y) (l : list X) :
  Forall (λ x, f x = inr (g x)) l → mapM f l = inr (g <$> l).
Proof.
  induction 1 as [|x l Hx _ IH]; [done|].
  cbn. rewrite Hx. cbn. by rewrite IH.
Qed.

Lemma mapM_result_raise {X Y} (f : X → result Y) (x : X) (l : list X) e :
  f x = inl e → mapM f (x :: l) = inl e.
Proof. intros Hx. cbn. by rewrite Hx. Qed.

(** At 256 Hz each pass band is a valid pair of critical frequencies. *)
Lemma passband_valid (k : FilterKind) :
  let nyq := (0.5 * sfreq)%float in
  (0 <? (passband k).1 / nyq)%float = true ∧
  ((passband k).1 / nyq <? (passband k).2 / nyq)%float = true ∧
  ((passband k).2 / nyq <? 1)%float = true.
Proof. by destruct k. Qed.

Lemma bandpass_filter_long `{!NumericsLaws N} (k : FilterKind) :
  ∃ b a,
    butter 4 ((passband k).1 / (0.5 * sfreq))%float
             ((passband k).2 / (0.5 * sfreq))%float = inr (b, a) ∧
    Scipy.padlen b a = 27 ∧
    ∀ channel, 27 < length channel →
      kind_filter k channel sfreq = inr (filtfilt_kernel b a channel).
Proof.
  destruct (passband_valid k) as (H0 & Hlt & H1).
  destruct (butter_band 4 _ _ H0 Hlt H1) as (b & a & Hba & Hb & Ha).
  exists b, a. split; [done|].
  assert (Scipy.padlen b a = 27) as Hpad.
  { unfold Scipy.padlen. rewrite Ha, Hb. done. }
  split; [done|]. intros channel Hlen.
  rewrite kind_filter_passband. unfold bandpass_filter.
  rewrite Hba. cbn. unfold Scipy.filtfilt. rewrite Hpad.
  case_decide; [lia|done].
Qed.

Lemma bandpass_filter_short `{!NumericsLaws N} (k : FilterKind) channel :
  length channel ≤ 27 →
  ∃ msg, kind_filter k channel sfreq = raise ValueError msg.
Proof.
  intros Hlen.
  destruct (bandpass_filter_long k) as (b & a & Hba & Hpad & _).
  rewrite kind_filter_passband. unfold bandpass_filter.
  rewrite Hba. cbn. unfold Scipy.filtfilt. rewrite Hpad.
  case_decide; [by eexists|lia].
Qed.

(** C6, as the program has it.  At the rate of the pipeline (256 Hz), for
    every filter kind and every window with at least one channel and more
    than 27 timepoints (three times the 9 coefficients of the design),
    conditioning succeeds: the band pass of order 4 designed for the kind's
    pass band (Biting 20-50, Blink 0.1-4, Eyebrow 25-40, JawClench 20-50 Hz)
    is applied by forward-backward filtering to each channel on its own,
    and the result is a matrix of the shape of the input. *)
Theorem condition_keeps_shape `{!NumericsLaws N} (k : FilterKind) (snippet : matrix) :
  wf_matrix snippet → 0 < n_rows snippet → 27 < n_cols snippet →
  mapping !! kind_name k = Some (kind_filter k) ∧
  (∀ signal fs, kind_filter k signal fs =
                bandpass_filter signal fs (passband k).1 (passband k).2 4) ∧
  ∃ b a out,
    butter 4 ((passband k).1 / (0.5 * sfreq))%float
             ((passband k).2 / (0.5 * sfreq))%float = inr (b, a) ∧
    condition (kind_filter k) snippet sfreq = inr (Mat out) ∧
    rows out = filtfilt_kernel b a <$> rows snippet ∧
    shape out = shape snippet ∧
    wf_matrix out.
Proof.
  intros [Hrows Hcols] Hpos Hlong.
  split; [apply mapping_kind|]. split; [apply kind_filter_passband|].
  destruct (bandpass_filter_long k) as (b & a & Hba & _ & Hch).
  exists b, a.
  assert (mapM (λ channel, kind_filter k channel sfreq) (rows snippet)
          = inr (filtfilt_kernel b a <$> rows snippet)) as HmapM.
  { apply mapM_result_ok. eapply Forall_impl; [exact Hcols|].
    intros channel Hlen. apply Hch. cbn in Hlen. lia. }
  destruct snippet as [nr nc rs]. cbn in *.
  destruct rs as [|r rs]; [cbn in Hrows; lia|].
  eexists. split; [done|]. unfold condition. cbn [rows].
  rewrite HmapM. cbn.
  apply Forall_cons in Hcols as [Hr Hrs].
  split; [done|]. split; [done|]. split.
  - unfold shape. cbn. rewrite length_fmap, filtfilt_kernel_length.
    cbn in Hrows. by rewrite Hrows, Hr.
  - split; cbn.
    + by rewrite length_fmap.
    + rewrite !filtfilt_kernel_length.
      constructor; [apply filtfilt_kernel_length|].
      apply Forall_fmap. eapply Forall_impl; [exact Hrs|].
      intros x Hx. cbn. rewrite filtfilt_kernel_length. congruence.
Qed.

End filters.

(** C6, the claim as stated fails on short windows: with 27 timepoints per
    channel [filtfilt] rejects its input and conditioning raises instead of
    returning a matrix; and a window of no channel comes back as the
    one-dimensional empty array. *)
Lemma condition_short_window_raises :
  Spec.always_raises_ValueError
    (λ N : Numerics, RealTime.condition RealTime.filter_blink Demo.window_27 RealTime.sfreq) ∧
  Spec.always_raises_ValueError
    (λ N : Numerics, RealTime.condition RealTime.filter_jaw Demo.window_27 RealTime.sfreq) ∧
  (∀ N : Numerics, RealTime.condition RealTime.filter_jaw Demo.window_no_channel RealTime.sfreq
        = inr Numpy.Empty1D).
Proof.
  split; [|split].
  - intros N HN.
    destruct (bandpass_filter_short Spec.Blink (replicate 27 1%float)) as [msg Hmsg].
    { by rewrite length_replicate. }
    exists msg. unfold RealTime.condition. cbn [Numpy.rows Demo.window_27 replicate].
    by erewrite mapM_result_raise.
  - intros N HN.
    destruct (bandpass_filter_short Spec.JawClench (replicate 27 1%float)) as [msg Hmsg].
    { by rewrite length_replicate. }
    exists msg. unfold RealTime.condition. cbn [Numpy.rows Demo.window_27 replicate].
    by erewrite mapM_result_raise.
  - done.
Qed.

Lemma demo_numerics_laws : NumericsLaws Demo.numerics.
Proof.
  split.
  - intros n low high _ _ _. eexists _, _. split; [done|].
    by rewrite !length_replicate.
  - done.
Qed.

Lemma condition_keeps_shape_witness :
  ∃ out,
    RealTime.condition (RealTime.filter_blink (N:=Demo.numerics)) Demo.window_30 RealTime.sfreq
      = inr (Numpy.Mat out) ∧
    Numpy.shape out = (1, 30).
Proof.
  destruct (condition_keeps_shape (N:=Demo.numerics) (NumericsLaws0:=demo_numerics_laws)
              Spec.Blink Demo.window_30) as (_ & _ & b & a & out & _ & Hout & _ & Hshape & _).
  - split; [reflexivity|]. repeat constructor.
  - simpl. lia.
  - simpl. lia.
  - exists out. split; [exact Hout | exact Hshape].
Defined.

Lemma choose_filter_fallback_witness :
  RealTime.choose_filter (N:=Demo.numerics) (A:=Demo.artifacts "Rest") Demo.window_30 RealTime.sfreq
  = inr (RealTime.filter_jaw (N:=Demo.numerics), "Rest").
Proof.
  refine (proj1 (choose_filter_fallback (N:=Demo.numerics) (A:=Demo.artifacts "Rest")
                   Demo.window_30 RealTime.sfreq 1%Z "Rest" _ _ _)).
  - reflexivity.
  - reflexivity.
  - rewrite !not_elem_of_cons. repeat split; try discriminate. apply not_elem_of_nil.
Defined.

(** ** The six filter features *)

Section filter_features.
  Import Numpy RealTime.
  Context {N : Numerics}.

(** C5, as the program has it.  On a window that holds at least one
    timepoint, the sixth filter feature is the value of
    [high / low if low != 0 else inf] on the two average band powers: it is
    the positive-infinity sentinel whenever the low-band average compares
    equal to 0.0, and the IEEE quotient of the two averages otherwise, and
    computing it raises nothing.  So it is the sentinel exactly when the
    low-band average is zero or the quotient itself is positive infinity.
    (A window without a timepoint, which a file without a data row gives, is
    left out: there [np.var] raises before the ratio is reached.) *)
Theorem ratio_feature (snippet : matrix) (fs : float) :
  wf_matrix snippet → 0 < n_cols snippet →
  let high := avg_high_freq_power snippet fs in
  let low := avg_low_freq_power snippet fs in
  let ratio := power_ratio high low in
  extract_filter_features snippet fs !! 5 = Some ratio ∧
  length (extract_filter_features snippet fs) = 6 ∧
  ((low =? 0)%float = true → ratio = infinity) ∧
  ((low =? 0)%float = false → ratio = (high / low)%float) ∧
  (ratio = infinity ↔
     (low =? 0)%float = true ∨ (high / low)%float = infinity).
Proof.
  intros _ _. cbn zeta. split; [done|]. split; [done|].
  unfold power_ratio.
  destruct (avg_low_freq_power snippet fs =? 0)%float; cbn;
    intuition (auto; congruence).
Qed.

End filter_features.

(** C5, the claim as stated fails in binary64: the sentinel also comes out
    for a low-band power that is not zero, when the high-band power is
    infinite or the quotient overflows. *)
Lemma ratio_sentinel_with_nonzero_low_power :
  (RealTime.power_ratio infinity 1 = infinity ∧ (1 =? 0)%float = false) ∧
  (RealTime.power_ratio 0x1p+1000 0x1p-1000 = infinity ∧
   (0x1p-1000 =? 0)%float = false).
Proof. repeat split; reflexivity. Qed.

Lemma ratio_feature_witness :
  RealTime.extract_filter_features (N:=Demo.numerics) Demo.window_30 256 !! 5
  = Some 0%float.
Proof.
  destruct (ratio_feature (N:=Demo.numerics) Demo.window_30 256) as (Hratio & _).
  - split; [reflexivity|]. repeat constructor.
  - unfold Demo.window_30. cbn [Numpy.n_cols]. lia.
  - rewrite Hratio. vm_compute. reflexivity.
Defined.

(** ** The action features *)

Section action_features.
  Import Numpy RealTime Spec.
  Context {N : Numerics}.

Lemma psd_loop sfreq (channels : list (list float)) (acc : list float) :
  foldl (λ feature_vector channel,
           let '(freqs, psd) := welch channel sfreq (256 `min` length channel) in
           feature_vector ++ [np_mean psd; np_std psd]) acc channels
  = acc ++ (channels ≫= λ channel,
              [np_mean (psd_of sfreq channel); np_std (psd_of sfreq channel)]).
Proof.
  revert acc. induction channels as [|channel channels IH]; intros acc; cbn.
  - by rewrite app_nil_r.
  - rewrite IH. unfold psd_of.
    destruct (welch channel sfreq _) as [freqs psd]. cbn.
    by rewrite <- app_assoc.
Qed.

Lemma psd_loop_trainer sfreq (channels : list (list float)) (acc : list float) :
  foldl (λ feature_vector channel,
           let '(freqs, psd) := welch channel sfreq (256 `min` length channel) in
           let feature_vector := feature_vector ++ [np_mean psd] in
           feature_vector ++ [np_std psd]) acc channels
  = acc ++ (channels ≫= λ channel,
              [np_mean (psd_of sfreq channel); np_std (psd_of sfreq channel)]).
Proof.
  revert acc. induction channels as [|channel channels IH]; intros acc; cbn.
  - by rewrite app_nil_r.
  - rewrite IH. unfold psd_of.
    destruct (welch channel sfreq _) as [freqs psd]. cbn.
    by rewrite <- !app_assoc.
Qed.

Lemma extract_features_from_sample_layout (eeg_sample : matrix) sfreq :
  extract_features_from_sample eeg_sample sfreq = [layout sfreq (rows eeg_sample)].
Proof.
  unfold extract_features_from_sample, layout.
  rewrite psd_loop. cbn. by rewrite <- !app_assoc.
Qed.

(** C2.  On every channels-by-timepoints matrix and every sampling rate,
    the trainer's [extract_features], applied to the batch that holds this
    one sample, returns what [extract_features_from_sample] of the
    real-time path returns: the same values in the same order, as a
    one-row matrix. *)
Theorem extract_features_agree (sample : matrix) (sfreq : float) :
  Trainer.extract_features [sample] sfreq = extract_features_from_sample sample sfreq.
Proof.
  rewrite extract_features_from_sample_layout.
  unfold Trainer.extract_features, layout. cbn.
  rewrite psd_loop_trainer. cbn. by rewrite <- !app_assoc.
Qed.

Lemma pairs_lookup {X} (f g : list float → X) (channels : list (list float)) i channel :
  channels !! i = Some channel →
  (channels ≫= λ c, [f c; g c]) !! (2 * i) = Some (f channel) ∧
  (channels ≫= λ c, [f c; g c]) !! (2 * i + 1) = Some (g channel).
Proof.
  revert i. induction channels as [|c channels IH]; intros i Hi; [done|].
  destruct i as [|i]; cbn in *.
  - by simplify_eq.
  - replace (i + S (i + 0)) with (S (2 * i)) by lia. cbn.
    replace (i + (i + 0)) with (2 * i) in * by lia.
    by apply IH.
Qed.

Lemma pairs_length {X} (f g : list float → X) (channels : list (list float)) :
  length (channels ≫= λ c, [f c; g c]) = 2 * length channels.
Proof. induction channels as [|c channels IH]; cbn; [done|]. rewrite IH. lia. Qed.

(** C3.  For a sample of [C] channels the feature vector has [6C] entries:
    entries [2i] and [2i+1] are the mean and the standard deviation of the
    Welch spectral density of channel [i] (segment length
    [min(256, len(channel))]); then come the [C] channel means, the [C]
    standard deviations, the [C] skewnesses and the [C] kurtoses, each in
    channel order. *)
Theorem feature_vector_layout (eeg_sample : matrix) (sfreq : float) :
  wf_matrix eeg_sample →
  let C := n_rows eeg_sample in
  ∃ fv,
    extract_features_from_sample eeg_sample sfreq = [fv] ∧
    length fv = 2 * C + 4 * C ∧
    length fv = 6 * C ∧
    ∀ i channel, rows eeg_sample !! i = Some channel →
      let psd := (welch channel sfreq (256 `min` length channel)).2 in
      fv !! (2 * i) = Some (np_mean psd) ∧
      fv !! (2 * i + 1) = Some (np_std psd) ∧
      fv !! (2 * C + i) = Some (np_mean channel) ∧
      fv !! (3 * C + i) = Some (np_std channel) ∧
      fv !! (4 * C + i) = Some (skew channel) ∧
      fv !! (5 * C + i) = Some (kurtosis channel).
Proof.
  intros [Hrows _]. cbn zeta. rewrite <- Hrows.
  exists (layout sfreq (rows eeg_sample)).
  split; [apply extract_features_from_sample_layout|].
  set (channels := rows eeg_sample). unfold layout.
  assert (length (layout sfreq channels) = 6 * length channels) as Hlen.
  { unfold layout. rewrite !length_app, pairs_length, !length_fmap. lia. }
  unfold layout in Hlen. split; [lia|]. split; [exact Hlen|].
  intros i channel Hi.
  pose proof (lookup_lt_Some _ _ _ Hi) as Hlt.
  destruct (pairs_lookup (λ c, np_mean (psd_of sfreq c)) (λ c, np_std (psd_of sfreq c))
              channels i channel Hi) as [H0 H1].
  repeat split.
  - rewrite lookup_app_l by (rewrite pairs_length; lia). exact H0.
  - rewrite lookup_app_l by (rewrite pairs_length; lia). exact H1.
  - rewrite lookup_app_r by (rewrite pairs_length; lia).
    rewrite pairs_length. replace (2 * length channels + i - 2 * length channels) with i by lia.
    rewrite lookup_app_l by (rewrite length_fmap; lia).
    by rewrite list_lookup_fmap, Hi.
  - rewrite lookup_app_r by (rewrite pairs_length; lia).
    rewrite pairs_length.
    rewrite lookup_app_r by (rewrite length_fmap; lia).
    rewrite length_fmap.
    replace (3 * length channels + i - 2 * length channels - length channels) with i by lia.
    rewrite lookup_app_l by (rewrite length_fmap; lia).
    by rewrite list_lookup_fmap, Hi.
  - rewrite lookup_app_r by (rewrite pairs_length; lia).
    rewrite pairs_length.
    rewrite lookup_app_r by (rewrite length_fmap; lia).
    rewrite length_fmap.
    rewrite lookup_app_r by (rewrite length_fmap; lia).
    rewrite length_fmap.
    replace (4 * length channels + i - 2 * length channels - length channels
             - length channels) with i by lia.
    rewrite lookup_app_l by (rewrite length_fmap; lia).
    by rewrite list_lookup_fmap, Hi.
  - rewrite lookup_app_r by (rewrite pairs_length; lia).
    rewrite pairs_length.
    rewrite lookup_app_r by (rewrite length_fmap; lia).
    rewrite length_fmap.
    rewrite lookup_app_r by (rewrite length_fmap; lia).
    rewrite length_fmap.
    rewrite lookup_app_r by (rewrite length_fmap; lia).
    rewrite length_fmap.
    replace (5 * length channels + i - 2 * length channels - length channels
             - length channels - length channels) with i by lia.
    by rewrite list_lookup_fmap, Hi.
Qed.

End action_features.

Lemma feature_vector_layout_witness :
  ∃ fv,
    RealTime.extract_features_from_sample (N:=Demo.numerics) Demo.window_700 RealTime.sfreq
      = [fv] ∧
    length fv = 12.
Proof.
  destruct (feature_vector_layout (N:=Demo.numerics) Demo.window_700 RealTime.sfreq)
    as (fv & Hfv & _ & Hlen & _).
  - split; [reflexivity|]. repeat constructor.
  - exists fv. split; [exact Hfv | exact Hlen].
Defined.

(** ** The analysis window *)

Section window.
  Import Numpy RealTime.
  Context {E : Env}.

Lemma slice_cols_wf (a : nat) (m : matrix) :
  wf_matrix m → a + snippet_length ≤ n_cols m →
  wf_matrix (slice_cols a (a + snippet_length) m) ∧
  shape (slice_cols a (a + snippet_length) m) = (n_rows m, snippet_length).
Proof.
  intros [Hrows Hcols] Hfit. split; [split|]; cbn.
  - by rewrite length_map.
  - apply Forall_map. eapply Forall_impl; [exact Hcols|].
    intros r Hr. cbn in *. rewrite length_take, length_drop. lia.
  - unfold shape. cbn. f_equal. lia.
Qed.

(** C4.  A snippet with more than [L = 640] timepoints gives a window of
    exactly [L] timepoints: for some start offset in [0, timepoints - L],
    every channel of the window is the run of [L] consecutive samples of
    that channel of the snippet beginning at the offset.  A snippet with at
    most [L] timepoints is the window as it is, without padding.  Selecting
    the window never raises. *)
Theorem select_window_spec (eeg_data : matrix) (st : Sys) :
  wf_matrix eeg_data →
  snippet_length = 640 ∧
  ∃ snippet st',
    select_window eeg_data st = (inr snippet, st') ∧
    wf_matrix snippet ∧
    (snippet_length < n_cols eeg_data →
       ∃ start_idx,
         start_idx ≤ n_cols eeg_data - snippet_length ∧
         shape snippet = (n_rows eeg_data, snippet_length) ∧
         rows snippet = (λ r, take snippet_length (drop start_idx r)) <$> rows eeg_data ∧
         Forall2 (λ r w, length w = snippet_length ∧
                         r = take start_idx r ++ w ++ drop (start_idx + snippet_length) r)
                 (rows eeg_data) (rows snippet)) ∧
    (n_cols eeg_data ≤ snippet_length → snippet = eeg_data ∧ st' = st).
Proof.
  intros Hwf. split; [done|]. unfold select_window, shape.
  case_decide as Hlong.
  - unfold mbind, M_bind, mret, M_ret, randint.
    case_decide as Hempty; [lia|].
    rewrite Nat.sub_0_r, Nat.add_0_l.
    remember (entropy (rng_draws st) `mod` (n_cols eeg_data - snippet_length + 1))
      as start_idx eqn:Hdraw.
    assert (start_idx ≤ n_cols eeg_data - snippet_length) as Hstart.
    { pose proof (Nat.mod_upper_bound (entropy (rng_draws st))
                    (n_cols eeg_data - snippet_length + 1)). lia. }
    destruct (slice_cols_wf start_idx eeg_data Hwf) as [Hwf' Hshape]; [lia|].
    eexists _, _. split; [done|]. split; [exact Hwf'|]. split; [|lia].
    intros _. exists start_idx. split; [done|]. split; [done|].
    unfold slice_cols. cbn [rows].
    replace (start_idx + snippet_length - start_idx) with snippet_length by lia.
    split; [done|].
    destruct Hwf as [_ Hcols]. apply Forall2_fmap_r, Forall_Forall2_diag.
    eapply Forall_impl; [exact Hcols|]. intros r Hr. cbn beta in *. split.
    + rewrite length_take, length_drop. lia.
    + rewrite <- drop_drop, (take_drop snippet_length (drop start_idx r)).
      by rewrite take_drop.
  - eexists _, _. split; [done|]. split; [done|]. split; [lia|done].
Qed.

End window.

Lemma select_window_spec_witness :
  ∃ snippet st',
    RealTime.select_window (E:=Demo.env) Demo.window_700 (RealTime.startup ∅)
      = (inr snippet, st') ∧
    Numpy.shape snippet = (2, 640).
Proof.
  destruct (select_window_spec (E:=Demo.env) Demo.window_700 (RealTime.startup ∅))
    as (_ & snippet & st' & Hrun & _ & Hlong & _).
  - split; [reflexivity|]. repeat constructor.
  - exists snippet, st'. split; [exact Hrun|].
    destruct Hlong as (start_idx & _ & Hshape & _); [vm_compute; lia|].
    exact Hshape.
Defined.

(** ** The polling loop *)

Section loop_facts.
  Import Numpy RealTime Spec.
  Context {N : Numerics} {A : Artifacts} {E : Env}.

(** *** Running the monad *)

Lemma bind_ok {T U} (c : M T) (f : T → M U) st x st' :
  c st = (inr x, st') → (c ≫= f) st = f x st'.
Proof. intros Hc. unfold mbind, M_bind. by rewrite Hc. Qed.

Lemma bind_raise {T U} (c : M T) (f : T → M U) st e st' :
  c st = (inl e, st') → (c ≫= f) st = (inl e, st').
Proof. intros Hc. unfold mbind, M_bind. by rewrite Hc. Qed.

Lemma reads_app tr1 tr2 : reads (tr1 ++ tr2) = reads tr1 ++ reads tr2.
Proof. apply omap_app. Qed.

Lemma printed_app tr1 tr2 : printed (tr1 ++ tr2) = printed tr1 ++ printed tr2.
Proof. apply omap_app. Qed.

(** *** Steps that read nothing *)

Lemma quiet_refl f st : quiet f st st.
Proof.
  split; [done|]. split; [set_solver|]. exists []. by rewrite app_nil_r.
Qed.

Lemma quiet_trans f st1 st2 st3 : quiet f st1 st2 → quiet f st2 st3 → quiet f st1 st3.
Proof.
  intros (Ha & Hb & evs & Htr & Hr) (Ha' & Hb' & evs' & Htr' & Hr').
  split; [by transitivity (processed_files st2)|]. split.
  { intros x Hx. apply Hb', elem_of_union in Hx as [Hx|Hx].
    - by apply elem_of_union_l.
    - by apply Hb. }
  exists (evs ++ evs'). split.
  - by rewrite Htr', Htr, <- app_assoc.
  - by rewrite reads_app, Hr, Hr'.
Qed.

Lemma keeps_ret {T} f (x : T) : keeps (quiet f) (mret x).
Proof. intros st. apply quiet_refl. Qed.

Lemma keeps_lift {T} f (r : result T) : keeps (quiet f) (lift r).
Proof. intros st. apply quiet_refl. Qed.

Lemma keeps_bind {T U} f (c : M T) (k : T → M U) :
  keeps (quiet f) c → (∀ x, keeps (quiet f) (k x)) → keeps (quiet f) (c ≫= k).
Proof.
  intros Hc Hk st. specialize (Hc st). unfold mbind, M_bind.
  destruct (c st) as [[e|x] st1]; cbn in *; [done|].
  eapply quiet_trans; [exact Hc|apply Hk].
Qed.

Lemma quiet_event f st ev cr rd :
  (∀ file, ev ≠ EvRead file) →
  quiet f st (MkSys (processed_files st) (predicted_action st) (trace st ++ [ev]) cr rd).
Proof.
  intros Hev. split; [done|]. split; [set_solver|]. exists [ev]. split; [done|].
  destruct ev; cbn; [|done..]. by destruct (Hev file).
Qed.

Lemma keeps_print f text : keeps (quiet f) (print text).
Proof. intros st. by apply quiet_event. Qed.

Lemma keeps_time f : keeps (quiet f) time_time.
Proof. intros st. by apply quiet_event. Qed.

Lemma keeps_randint f a b : keeps (quiet f) (randint a b).
Proof.
  intros st. unfold randint. case_decide; [apply quiet_refl|]. by apply quiet_event.
Qed.

Lemma keeps_set_predicted_action f label : keeps (quiet f) (set_predicted_action label).
Proof.
  intros st. split; [done|]. split; [set_solver|]. exists []. by rewrite app_nil_r.
Qed.

Lemma keeps_mark_processed f : keeps (quiet f) (mark_processed f).
Proof.
  intros st. split; [set_solver|]. split; [done|]. exists []. by rewrite app_nil_r.
Qed.

Lemma keeps_select_window f eeg_data : keeps (quiet f) (select_window eeg_data).
Proof.
  unfold select_window, shape. case_decide.
  - apply keeps_bind; [apply keeps_randint|]. intros ?. apply keeps_ret.
  - apply keeps_ret.
Qed.

Lemma process_file_quiet f df : keeps (quiet f) (process_file f df).
Proof.
  unfold process_file.
  apply keeps_bind; [apply keeps_lift|]. intros _.
  apply keeps_bind; [apply keeps_select_window|]. intros snippet.
  apply keeps_bind; [apply keeps_time|]. intros start_time.
  apply keeps_bind; [apply keeps_lift|]. intros [filtered chosen_filter].
  apply keeps_bind; [apply keeps_print|]. intros _.
  apply keeps_bind; [apply keeps_lift|]. intros features.
  apply keeps_bind; [apply keeps_lift|]. intros predicted_numeric.
  apply keeps_bind; [apply keeps_lift|]. intros label.
  apply keeps_bind; [apply keeps_set_predicted_action|]. intros _.
  apply keeps_bind; [apply keeps_print|]. intros _.
  apply keeps_bind; [apply keeps_time|]. intros end_time.
  apply keeps_bind; [apply keeps_print|]. intros _.
  apply keeps_mark_processed.
Qed.

(** *** What a poll reads *)

Lemma extends_trans st1 st2 st3 (P Q R : string → Prop) :
  extends st1 st2 P → extends st2 st3 Q →
  (∀ f, P f → R f) → (∀ f, Q f → R f) → extends st1 st3 R.
Proof.
  intros (Ha & evs & Htr & Hr) (Ha' & evs' & Htr' & Hr') HP HQ.
  split; [by transitivity (processed_files st2)|].
  exists (evs ++ evs'). split; [by rewrite Htr', Htr, <- app_assoc|].
  intros f. rewrite reads_app, elem_of_app. intros [Hf|Hf]; auto.
Qed.

Lemma extends_refl st (P : string → Prop) : extends st st P.
Proof.
  split; [done|]. exists []. split; [by rewrite app_nil_r|].
  intros f Hf. by apply elem_of_nil in Hf.
Qed.

Lemma attempt_extends p f st : extends st (attempt p f st).2 (λ x, x = f).
Proof.
  unfold attempt, mbind, M_bind, emit.
  set (st1 := MkSys _ _ (trace st ++ [EvRead f]) _ _).
  assert (quiet f st1 (match read_csv p f with
                       | inl e => print ("Error reading file " +:+ f +:+ " : " +:+ exn_msg e)
                       | inr df => process_file f df
                       end st1).2) as (Ha & _ & evs & Htr & Hr).
  { destruct (read_csv p f); [apply keeps_print|apply process_file_quiet]. }
  split; [done|]. exists (EvRead f :: evs). split.
  - rewrite Htr. unfold st1. cbn. by rewrite <- app_assoc.
  - intros x. change (reads (EvRead f :: evs)) with (f :: reads evs).
    rewrite Hr. by intros ->%list_elem_of_singleton.
Qed.

Lemma for_each_extends p l st :
  extends st (for_each l (attempt p) st).2 (λ x, x ∈ l).
Proof.
  revert st. induction l as [|f l IH]; intros st; [apply extends_refl|].
  cbn [for_each]. unfold mbind, M_bind.
  pose proof (attempt_extends p f st) as Hf.
  destruct (attempt p f st) as [[e|[]] st1]; cbn [snd] in *.
  - eapply extends_trans; [exact Hf|apply (extends_refl _ (λ _, False))| |by intros ? []].
    intros x ->. apply list_elem_of_here.
  - eapply extends_trans; [exact Hf|apply IH| |].
    + intros x ->. apply list_elem_of_here.
    + intros x Hx. by apply list_elem_of_further.
Qed.

Lemma elem_of_sorted (s : gset string) f : f ∈ sorted s ↔ f ∈ s.
Proof. unfold sorted. by rewrite merge_sort_Permutation, elem_of_elements. Qed.

Lemma sleep_extends st n (P : string → Prop) : extends st (sleep n st).2 P.
Proof.
  split; [done|]. exists [EvSleep n]. split; [done|].
  intros f Hf. by apply elem_of_nil in Hf.
Qed.

Lemma poll_extends p st :
  extends st (poll p st).2 (λ x, x ∈ listing p ∧ x ∉ processed_files st).
Proof.
  unfold poll, mbind, M_bind.
  set (new_files := listing p ∖ processed_files st).
  set (loop := if decide (new_files ≠ ∅)
               then for_each (sorted new_files) (attempt p)
               else mret ()).
  assert (extends st (loop st).2 (λ x, x ∈ new_files)) as Hloop.
  { unfold loop. case_decide; [|apply extends_refl].
    eapply extends_trans; [apply for_each_extends|apply (extends_refl _ (λ _, False))| |by intros ? []].
    intros f. by rewrite elem_of_sorted. }
  destruct (loop st) as [[e|[]] st1]; cbn [snd] in *.
  - eapply extends_trans; [exact Hloop|apply (extends_refl _ (λ _, False))| |by intros ? []].
    intros f. unfold new_files. by rewrite elem_of_difference.
  - eapply extends_trans; [exact Hloop|apply (sleep_extends _ _ (λ _, False))| |by intros ? []].
    intros f. unfold new_files. by rewrite elem_of_difference.
Qed.

Lemma run_extends polls st :
  extends st (run polls st).2
    (λ x, (x ∉ processed_files st) ∧ ∃ p, p ∈ polls ∧ x ∈ listing p).
Proof.
  unfold run. revert st. induction polls as [|p polls IH]; intros st;
    [apply extends_refl|].
  cbn [for_each]. unfold mbind, M_bind.
  pose proof (poll_extends p st) as Hp.
  destruct (poll p st) as [[e|[]] st1]; cbn [snd] in *.
  - eapply extends_trans; [exact Hp|apply (extends_refl _ (λ _, False))| |by intros ? []].
    intros f [Hin Hnew]. split; [done|]. exists p. split; [apply list_elem_of_here|done].
  - eapply extends_trans; [exact Hp|apply IH| |].
    + intros f [Hin Hnew]. split; [done|]. exists p. split; [apply list_elem_of_here|done].
    + intros f [Hnew (q & Hq & Hin)]. destruct Hp as [Hsub _]. split.
      * intros Hold. apply Hnew. by apply Hsub.
      * exists q. split; [by apply list_elem_of_further|done].
Qed.

(** A file that is marked processed is never read again. *)
Lemma marked_never_read_again polls st f :
  f ∈ processed_files st →
  ∃ evs, trace (run polls st).2 = trace st ++ evs ∧ f ∉ reads evs.
Proof.
  intros Hf. destruct (run_extends polls st) as (_ & evs & Htr & Hfresh).
  exists evs. split; [done|]. intros Hin. by destruct (Hfresh f Hin).
Qed.

(** C10.  The files listed in the intake directory when the process starts
    are the consumed set before the first poll; they stay in it, and over
    any number of polls none of them is ever read, so none is processed,
    classified or reported.  Every file the loop reads was listed by some
    poll and was not in the directory at startup. *)
Theorem startup_files_never_processed (initial_listing : gset string) (polls : list Poll) :
  let st' := (run polls (startup initial_listing)).2 in
  processed_files (startup initial_listing) = initial_listing ∧
  initial_listing ⊆ processed_files st' ∧
  (∀ f, f ∈ initial_listing → f ∉ reads (trace st')) ∧
  (∀ f, f ∈ reads (trace st') →
        (f ∉ initial_listing) ∧ ∃ p, p ∈ polls ∧ f ∈ listing p).
Proof.
  cbn zeta. destruct (run_extends polls (startup initial_listing))
    as (Hsub & evs & Htr & Hfresh).
  cbn [startup processed_files trace] in *. rewrite Htr. cbn [app].
  split; [done|]. split; [done|]. split.
  - intros f Hf Hin. by destruct (Hfresh f Hin).
  - intros f Hin. by apply Hfresh.
Qed.

(** *** A successful run of the loop body *)

Lemma process_file_inv f df st st' :
  process_file f df st = (inr (), st') →
  ∃ window st1 out name features c label,
    select_window (iloc_from1_T df) st = (inr window, st1) ∧
    apply_filter_to_snippet window sfreq = inr (out, name) ∧
    extract_features_from_array out sfreq = inr features ∧
    clf_predict features = inr c ∧
    lookup_action c = inr label ∧
    st' = MkSys ({[f]} ∪ processed_files st1) label
            (trace st1 ++
             [EvTime (clock (clock_reads st1));
              EvPrint (line ("Chosen Filter: " +:+ name));
              EvPrint (line ("Predicted Action: " +:+ label));
              EvTime (clock (S (clock_reads st1)));
              EvPrint (line ("End-to-end processing latency: "
                             +:+ format_2f ((clock (S (clock_reads st1))
                                             - clock (clock_reads st1)) * 1000)%float
                             +:+ " ms" +:+ nl))])
            (S (S (clock_reads st1))) (rng_draws st1).
Proof.
  unfold process_file, mbind, M_bind, lift.
  destruct (iloc_col0 df) as [e|ts]; [done|].
  destruct (select_window (iloc_from1_T df) st) as [[e|window] st1] eqn:Hwin; [done|].
  unfold time_time at 1.
  destruct (apply_filter_to_snippet window sfreq) as [e|[out name]] eqn:Hfilter; [done|].
  unfold print at 1, emit at 1.
  destruct (extract_features_from_array out sfreq) as [e|features] eqn:Hfeat; [done|].
  destruct (clf_predict features) as [e|c] eqn:Hclf; [done|].
  destruct (lookup_action c) as [e|label] eqn:Hlabel; [done|].
  unfold set_predicted_action, print, emit, time_time, mark_processed. cbn.
  intros [= <-]. exists window, st1, out, name, features, c, label.
  repeat (split; [done|]). by rewrite <- !app_assoc.
Qed.

Lemma select_window_trace eeg_data st r st1 :
  select_window eeg_data st = (r, st1) →
  processed_files st1 = processed_files st ∧
  clock_reads st1 = clock_reads st ∧
  ∃ pre, trace st1 = trace st ++ pre ∧ printed pre = [] ∧
         (pre = [] ∨ ∃ start_idx, pre = [EvRandint start_idx]).
Proof.
  unfold select_window, shape. case_decide.
  - unfold mbind, M_bind, randint. case_decide.
    + intros [= <- <-]. repeat split. exists []. rewrite app_nil_r. auto.
    + intros [= <- <-]. repeat split. eexists [_]. eauto.
  - intros [= <- <-]. repeat split. exists []. rewrite app_nil_r. auto.
Qed.

Lemma lookup_action_label c label :
  lookup_action c = inr label →
  label ∈ ["Biting"; "Blink"; "Eyebrow"; "Jaw Clench"].
Proof.
  unfold lookup_action.
  destruct (action_mapping !! c) as [l|] eqn:Hc; [|done]. intros [= <-].
  unfold action_mapping in Hc.
  repeat (apply lookup_insert_Some in Hc as [[_ <-]|[_ Hc]];
          [repeat first [apply list_elem_of_here|apply list_elem_of_further]|]).
  by rewrite lookup_empty in Hc.
Qed.

Lemma process_file_filter_raises f df st ts window st1 e :
  iloc_col0 df = inr ts →
  select_window (iloc_from1_T df) st = (inr window, st1) →
  apply_filter_to_snippet window sfreq = inl e →
  process_file f df st
  = (inl e, MkSys (processed_files st1) (predicted_action st1)
                  (trace st1 ++ [EvTime (clock (clock_reads st1))])
                  (S (clock_reads st1)) (rng_draws st1)).
Proof.
  intros Hts Hwin Hfilter. unfold process_file. rewrite Hts.
  unfold mbind at 1, M_bind at 1, lift at 1.
  erewrite bind_ok by exact Hwin.
  erewrite bind_ok by reflexivity.
  unfold mbind at 1, M_bind at 1, lift at 1. by rewrite Hfilter.
Qed.

Lemma process_file_run f df st ts window st1 out name features c label :
  iloc_col0 df = inr ts →
  select_window (iloc_from1_T df) st = (inr window, st1) →
  apply_filter_to_snippet window sfreq = inr (out, name) →
  extract_features_from_array out sfreq = inr features →
  clf_predict features = inr c →
  lookup_action c = inr label →
  process_file f df st
  = (inr (),
     MkSys ({[f]} ∪ processed_files st1) label
       (trace st1 ++
        [EvTime (clock (clock_reads st1));
         EvPrint (line ("Chosen Filter: " +:+ name));
         EvPrint (line ("Predicted Action: " +:+ label));
         EvTime (clock (S (clock_reads st1)));
         EvPrint (line ("End-to-end processing latency: "
                        +:+ format_2f ((clock (S (clock_reads st1))
                                        - clock (clock_reads st1)) * 1000)%float
                        +:+ " ms" +:+ nl))])
       (S (S (clock_reads st1))) (rng_draws st1)).
Proof.
  intros Hts Hwin Hfilter Hfeat Hclf Hlabel. unfold process_file. rewrite Hts.
  unfold mbind at 1, M_bind at 1, lift at 1.
  erewrite bind_ok by exact Hwin.
  erewrite bind_ok by reflexivity.
  unfold mbind at 1, M_bind at 1, lift at 1. rewrite Hfilter.
  erewrite bind_ok by reflexivity.
  unfold mbind at 1, M_bind at 1, lift at 1. rewrite Hfeat.
  unfold mbind at 1, M_bind at 1, lift at 1. rewrite Hclf.
  unfold mbind at 1, M_bind at 1, lift at 1. rewrite Hlabel.
  erewrite bind_ok by reflexivity.
  erewrite bind_ok by reflexivity.
  erewrite bind_ok by reflexivity.
  erewrite bind_ok by reflexivity.
  unfold mark_processed. cbn. by rewrite <- !app_assoc.
Qed.

(** C8, as the program has it.  Take a frame with a timestamp column, and
    let [window] be the analysis window cut from it and [st1] the state of
    the process after the cut (which reads no clock, prints nothing and
    leaves the consumed set as it is).

    - The first timestamp [t0] is taken next, before the filter is selected
      and the window is conditioned: when one of these two raises, the clock
      has been read exactly once and nothing has been printed.
    - The file is processed without an exception exactly when the filter
      stage returns a conditioned window [out] and a decoded filter name, the
      action features of [out] can be computed, the action model answers a
      class [c] on them, and [c] is in the table of action labels.
    - Then three texts are written, in this order: the line
      "Chosen Filter: " with the decoded filter name; the line
      "Predicted Action: " with the label of [c] and nothing else; and the
      line "End-to-end processing latency: <x> ms" followed by an empty line.
      The second timestamp [t1] is taken after the "Predicted Action" line
      has been written, and [x] is [(t1 - t0) * 1000], printed with two
      decimals.  The label is stored as the predicted action and the
      file enters the consumed set. *)
Theorem telemetry_of_processed_snippet f df st ts window st1 :
  iloc_col0 df = inr ts →
  select_window (iloc_from1_T df) st = (inr window, st1) →
  let t0 := clock (clock_reads st1) in
  let t1 := clock (S (clock_reads st1)) in
  let latency_ms := ((t1 - t0) * 1000)%float in
  let chosen name := line ("Chosen Filter: " +:+ name) in
  let predicted label := line ("Predicted Action: " +:+ label) in
  let latency :=
    line ("End-to-end processing latency: " +:+ format_2f latency_ms +:+ " ms" +:+ nl) in
  (processed_files st1 = processed_files st ∧
   clock_reads st1 = clock_reads st ∧
   ∃ pre, trace st1 = trace st ++ pre ∧ printed pre = [] ∧
          (pre = [] ∨ ∃ start_idx, pre = [EvRandint start_idx])) ∧
  (∀ e, apply_filter_to_snippet window sfreq = inl e →
        process_file f df st
        = (inl e, MkSys (processed_files st1) (predicted_action st1)
                        (trace st1 ++ [EvTime t0])
                        (S (clock_reads st1)) (rng_draws st1))) ∧
  (∀ st',
     process_file f df st = (inr (), st') ↔
     ∃ out name features c label,
       apply_filter_to_snippet window sfreq = inr (out, name) ∧
       extract_features_from_array out sfreq = inr features ∧
       clf_predict features = inr c ∧
       action_mapping !! c = Some label ∧
       st' = MkSys ({[f]} ∪ processed_files st1) label
               (trace st1 ++
                [EvTime t0; EvPrint (chosen name); EvPrint (predicted label);
                 EvTime t1; EvPrint latency])
               (S (S (clock_reads st1))) (rng_draws st1) ∧
       label ∈ ["Biting"; "Blink"; "Eyebrow"; "Jaw Clench"] ∧
       printed (trace st')
       = printed (trace st) ++ [chosen name; predicted label; latency]).
Proof.
  intros Hts Hwin. cbn zeta.
  destruct (select_window_trace _ _ _ _ Hwin)
    as (Hfiles & Hclock & pre & Htr & Hquiet & Hpre).
  split; [split; [done|split; [done|by exists pre]]|].
  split; [intros e He; by eapply process_file_filter_raises|].
  intros st'. split.
  - intros Hrun.
    apply process_file_inv in Hrun
      as (window' & st1' & out & name & features & c & label
          & Hwin' & Hfilter & Hfeat & Hclf & Hlabel & ->).
    rewrite Hwin in Hwin'. injection Hwin' as <- <-.
    exists out, name, features, c, label.
    split; [done|]. split; [done|]. split; [done|]. split.
    { unfold lookup_action in Hlabel.
      destruct (action_mapping !! c) as [l|]; [|done]. by injection Hlabel as ->. }
    split; [done|]. split; [by eapply lookup_action_label|].
    cbn [trace]. by rewrite Htr, !printed_app, Hquiet, app_nil_r.
  - intros (out & name & features & c & label & Hfilter & Hfeat & Hclf & Hlabel & -> & _).
    eapply process_file_run; [done..|].
    unfold lookup_action. by rewrite Hlabel.
Qed.

(** *** A file that cannot be read *)

Lemma sorted_singleton f : sorted {[f]} = [f].
Proof. unfold sorted. by rewrite elements_singleton. Qed.

Lemma poll_single_file f content st :
  f ∉ processed_files st →
  poll (Demo.poll_of f content) st
  = (_ ← attempt (Demo.poll_of f content) f; sleep 1) st.
Proof.
  intros Hnew. unfold poll. cbn [Demo.poll_of listing].
  assert ({[f]} ∖ processed_files st = ({[f]} : gset string)) as ->.
  { apply set_eq. intros x. rewrite elem_of_difference, elem_of_singleton.
    split; [tauto|]. by intros ->. }
  case_decide as Hne; [|by apply non_empty_singleton_L in Hne].
  rewrite sorted_singleton. cbn [for_each]. unfold mbind, M_bind.
  by destruct (attempt _ f st) as [[e|[]] st1].
Qed.

Lemma poll_unreadable_step st :
  processed_files st = ∅ →
  poll Demo.poll_unreadable st
  = (inr (),
     MkSys ∅ (predicted_action st)
           (trace st ++
            [EvRead "buffer_01.csv";
             EvPrint (line "Error reading file buffer_01.csv : No columns to parse from file");
             EvSleep 1])
           (clock_reads st) (rng_draws st)).
Proof.
  intros Hnone. unfold Demo.poll_unreadable.
  rewrite poll_single_file by (rewrite Hnone; apply not_elem_of_empty).
  unfold attempt, mbind, M_bind, emit, print, sleep, emit. cbn.
  by rewrite Hnone, <- !app_assoc.
Qed.

(** C1, the program at a file that cannot be parsed.  With an empty file
    "buffer_01.csv" in the intake directory, [n] polls call [pd.read_csv]
    on it [n] times, print the error [n] times, and never put it into the
    consumed set: the [continue] of the [except] branch skips
    [processed_files.add]. *)
Theorem unreadable_file_is_retried (n : nat) :
  let out := run (replicate n Demo.poll_unreadable) (startup ∅) in
  out.1 = inr () ∧
  reads (trace out.2) = replicate n "buffer_01.csv" ∧
  printed (trace out.2)
    = replicate n (line "Error reading file buffer_01.csv : No columns to parse from file") ∧
  processed_files out.2 = ∅.
Proof.
  cbn zeta.
  assert (∀ st, processed_files st = ∅ →
            let out := run (replicate n Demo.poll_unreadable) st in
            out.1 = inr () ∧
            reads (trace out.2) = reads (trace st) ++ replicate n "buffer_01.csv" ∧
            printed (trace out.2) = printed (trace st) ++
              replicate n (line "Error reading file buffer_01.csv : No columns to parse from file") ∧
            processed_files out.2 = ∅) as Hgen.
  { induction n as [|n IH]; intros st Hnone; cbn zeta.
    - cbn. by rewrite !app_nil_r.
    - unfold run. cbn [replicate for_each].
      erewrite bind_ok by (by apply poll_unreadable_step).
      match goal with
      | |- context [for_each _ poll ?st1] => specialize (IH st1 eq_refl)
      end.
      cbn zeta in IH. unfold run in IH.
      destruct IH as (Hok & Hreads & Hprinted & Hmarked).
      split; [done|]. split; [|split; [|done]].
      + rewrite Hreads. cbn [trace]. rewrite reads_app. cbn. by rewrite <- app_assoc.
      + rewrite Hprinted. cbn [trace]. rewrite printed_app. cbn. by rewrite <- app_assoc. }
  apply (Hgen (startup ∅)). done.
Qed.

(** *** A file with a header and no data row *)

(** No sample is never more than [padlen] samples: whatever [butter]
    returns, filtering an empty channel raises. *)
Lemma kind_filter_no_samples (k : FilterKind) fs :
  ∃ e, kind_filter k [] fs = inl e.
Proof.
  rewrite kind_filter_passband. unfold bandpass_filter.
  destruct (butter _ _ _) as [e|[b a]]; cbn; [by eexists|].
  unfold Scipy.filtfilt. case_decide as Hlen; [by eexists|].
  cbn in Hlen. lia.
Qed.

Lemma apply_filter_no_samples snippet fs rs :
  rows snippet = [] :: rs →
  ∃ e, apply_filter_to_snippet snippet fs = inl e.
Proof.
  intros Hrows. unfold apply_filter_to_snippet, choose_filter.
  destruct (filter_clf_predict _) as [e|c]; cbn; [by eexists|].
  destruct (filter_label_encoder_inverse_transform c) as [e|name]; cbn; [by eexists|].
  destruct (mapping_default name) as [k ->].
  destruct (kind_filter_no_samples k fs) as [e He].
  exists e. unfold condition. rewrite Hrows.
  by erewrite mapM_result_raise.
Qed.

Lemma process_file_no_samples f df st c0 c1 cs :
  columns df = c0 :: c1 :: cs → values df = [] →
  ∃ e, process_file f df st
       = (inl e, MkSys (processed_files st) (predicted_action st)
                       (trace st ++ [EvTime (clock (clock_reads st))])
                       (S (clock_reads st)) (rng_draws st)).
Proof.
  intros Hcols Hvals.
  destruct (apply_filter_no_samples (iloc_from1_T df) sfreq
              ((λ _, []) <$> seq 2 (length cs))) as [e He].
  { unfold iloc_from1_T. rewrite Hcols, Hvals. cbn. by rewrite ?Nat.sub_0_r. }
  exists e. unfold process_file, iloc_col0. rewrite Hcols.
  unfold mbind at 1, M_bind at 1, lift at 1. cbn [mret result_ret].
  unfold select_window, shape.
  replace (n_cols (iloc_from1_T df)) with 0
    by (unfold iloc_from1_T; by rewrite Hvals).
  case_decide as Hlong; [unfold snippet_length in Hlong; lia|].
  unfold mbind, M_bind, mret, M_ret, time_time, lift. by rewrite He.
Qed.

(** C7, the program at a header-only file.  With a file that holds the
    header row and no data row in the intake directory, the first poll
    reads it, cuts a window of zero timepoints, reads the clock, and then
    filter selection or [filtfilt] raises.  Nothing catches the exception:
    the loop ends there, whatever polls would follow, without a line
    printed, without the pause after the poll, and without the file in the
    consumed set. *)
Theorem header_only_file_ends_the_loop (polls : list Poll) :
  let out := run (Demo.poll_header_only :: polls) (startup ∅) in
  (∃ e, out.1 = inl e) ∧
  trace out.2 = [EvRead "buffer_01.csv"; EvTime (clock 0)] ∧
  printed (trace out.2) = [] ∧
  processed_files out.2 = ∅.
Proof.
  cbn zeta. unfold run. cbn [for_each]. unfold Demo.poll_header_only.
  set (st1 := MkSys ∅ "None" [EvRead "buffer_01.csv"] 0 0).
  destruct (process_file_no_samples "buffer_01.csv" Demo.frame_header_only st1
              "timestamps" "TP9" ["AF7"; "AF8"; "TP10"; "Right AUX"] eq_refl eq_refl)
    as [e He].
  assert (poll (Demo.poll_of "buffer_01.csv" (inr Demo.frame_header_only)) (startup ∅)
          = (inl e, MkSys ∅ "None" [EvRead "buffer_01.csv"; EvTime (clock 0)] 1 0))
    as Hpoll.
  { rewrite poll_single_file by apply not_elem_of_empty.
    apply bind_raise. unfold attempt. cbn [Demo.poll_of read_csv].
    erewrite bind_ok by reflexivity. exact He. }
  erewrite bind_raise by exact Hpoll. cbn. eauto.
Qed.

End loop_facts.

(** C8, the claim as stated fails: the measured latency is not on the
    "Predicted Action" line.  One poll over a directory with one recording,
    the clock reading 100 s and then 100.5 s, writes three lines; the second
    is the label alone, the latency has a line of its own. *)
Lemma latency_has_its_own_line :
  let out := RealTime.run (N:=Demo.numerics) (A:=Demo.artifacts "Blink") (E:=Demo.env)
               [Demo.poll_30] (RealTime.startup ∅) in
  out.1 = inr () ∧
  RealTime.printed (RealTime.trace out.2)
  = [RealTime.line "Chosen Filter: Blink";
     RealTime.line "Predicted Action: Blink";
     RealTime.line (RealTime.line "End-to-end processing latency: 500.00 ms")] ∧
  String.index 0 "500.00" (RealTime.line "Predicted Action: Blink") = None.
Proof. vm_compute. repeat split. Qed.

Lemma telemetry_of_processed_snippet_witness :
  let run := RealTime.process_file (N:=Demo.numerics) (A:=Demo.artifacts "Blink")
               (E:=Demo.env) "buffer_01.csv" Demo.frame_30 (RealTime.startup ∅) in
  run.1 = inr () ∧
  RealTime.trace run.2
  = [RealTime.EvTime 100;
     RealTime.EvPrint (RealTime.line "Chosen Filter: Blink");
     RealTime.EvPrint (RealTime.line "Predicted Action: Blink");
     RealTime.EvTime 0x1.92p+6;
     RealTime.EvPrint
       (RealTime.line (RealTime.line "End-to-end processing latency: 500.00 ms"))].
Proof.
  cbn zeta.
  destruct (telemetry_of_processed_snippet (N:=Demo.numerics) (A:=Demo.artifacts "Blink")
              (E:=Demo.env) "buffer_01.csv" Demo.frame_30 (RealTime.startup ∅)
              (replicate 30 0%float) Demo.window_30 (RealTime.startup ∅))
    as (_ & _ & Hrun).
  - reflexivity.
  - reflexivity.
  - destruct (Hrun (RealTime.process_file (N:=Demo.numerics) (A:=Demo.artifacts "Blink")
                      (E:=Demo.env) "buffer_01.csv" Demo.frame_30
                      (RealTime.startup ∅)).2) as [Hthen _].
    destruct Hthen as (out & name & features & c & label
                       & Hfilter & Hfeat & Hclf & Hlabel & Hst & _).
    { vm_compute. reflexivity. }
    split; [vm_compute; reflexivity|].
    vm_compute in Hfilter. injection Hfilter as <- <-.
    vm_compute in Hfeat. injection Hfeat as <-.
    vm_compute in Hclf. injection Hclf as <-.
    vm_compute in Hlabel. injection Hlabel as <-.
    rewrite Hst. vm_compute. reflexivity.
Defined.

(** ** More on the polling loop *)

Section loop_more.
Import Numpy RealTime Spec Ledger.
Context {N : Numerics} {A : Artifacts} {E : Env}.

Lemma accounted_refl st : accounted st st.
Proof.
  exists []. split; [by rewrite app_nil_r|]. split; [done|]. auto.
Qed.

Lemma accounted_trans st1 st2 st3 :
  accounted st1 st2 → accounted st2 st3 → accounted st1 st3.
Proof.
  intros (evs & Htr & Hsub & Hacc) (evs' & Htr' & Hsub' & Hacc').
  exists (evs ++ evs'). split; [by rewrite Htr', Htr, <- app_assoc|].
  split; [by transitivity (processed_files st2)|].
  intros f Hf. rewrite reads_app, elem_of_app.
  destruct (Hacc' f Hf) as [Hf2|Hf2]; [|auto].
  destruct (Hacc f Hf2); auto.
Qed.

(** One iteration of the [for] loop reads its file and nothing else, and
    marks at most that file. *)
Lemma attempt_reads p f st :
  ∃ evs, trace (attempt p f st).2 = trace st ++ evs ∧ reads evs = [f] ∧
         processed_files st ⊆ processed_files (attempt p f st).2 ∧
         processed_files (attempt p f st).2 ⊆ {[f]} ∪ processed_files st.
Proof.
  unfold attempt, mbind, M_bind, emit.
  set (st1 := MkSys _ _ (trace st ++ [EvRead f]) _ _).
  assert (quiet f st1 (match read_csv p f with
                       | inl e => print ("Error reading file " +:+ f +:+ " : " +:+ exn_msg e)
                       | inr df => process_file f df
                       end st1).2) as (Ha & Hb & evs & Htr & Hr).
  { destruct (read_csv p f); [apply keeps_print|apply process_file_quiet]. }
  exists (EvRead f :: evs). split; [|split; [|done]].
  - rewrite Htr. unfold st1. cbn. by rewrite <- app_assoc.
  - change (reads (EvRead f :: evs)) with (f :: reads evs). by rewrite Hr.
Qed.

Lemma attempt_accounted p f st : accounted st (attempt p f st).2.
Proof.
  destruct (attempt_reads p f st) as (evs & Htr & Hr & Hsub & Hsup).
  exists evs. split; [done|]. split; [done|].
  intros x Hx. apply Hsup, elem_of_union in Hx as [Hx|Hx]; [|auto].
  right. rewrite Hr. apply elem_of_singleton in Hx as ->. apply list_elem_of_here.
Qed.

Lemma for_each_reads p l st :
  ∃ evs, trace (for_each l (attempt p) st).2 = trace st ++ evs ∧
         reads evs `prefix_of` l ∧
         ((for_each l (attempt p) st).1 = inr () → reads evs = l) ∧
         accounted st (for_each l (attempt p) st).2.
Proof.
  revert st. induction l as [|f l IH]; intros st.
  { exists []. cbn. rewrite app_nil_r. repeat split; [done|apply accounted_refl]. }
  cbn [for_each]. unfold mbind, M_bind.
  destruct (attempt_reads p f st) as (evs & Htr & Hr & _).
  pose proof (attempt_accounted p f st) as Hacc.
  destruct (attempt p f st) as [[e|[]] st1]; cbn [fst snd] in *.
  - exists evs. split; [done|]. rewrite Hr. split; [|split; [done|done]].
    by exists l.
  - destruct (IH st1) as (evs' & Htr' & Hpre & Hall & Hacc').
    exists (evs ++ evs'). split; [by rewrite Htr', Htr, <- app_assoc|].
    rewrite reads_app, Hr. split; [by apply (prefix_cons f)|].
    split; [intros Hok; cbn; f_equal; by apply Hall|].
    by eapply accounted_trans.
Qed.

Lemma sleep_accounted st n : accounted st (sleep n st).2.
Proof.
  exists [EvSleep n]. split; [done|]. split; [done|]. auto.
Qed.

Lemma poll_reads p st :
  ∃ evs, trace (poll p st).2 = trace st ++ evs ∧
         reads evs `prefix_of` sorted (listing p ∖ processed_files st) ∧
         ((poll p st).1 = inr () →
            reads evs = sorted (listing p ∖ processed_files st)) ∧
         accounted st (poll p st).2.
Proof.
  unfold poll, mbind, M_bind.
  set (new_files := listing p ∖ processed_files st).
  set (loop := if decide (new_files ≠ ∅)
               then for_each (sorted new_files) (attempt p)
               else mret ()).
  assert (∃ evs, trace (loop st).2 = trace st ++ evs ∧
                 reads evs `prefix_of` sorted new_files ∧
                 ((loop st).1 = inr () → reads evs = sorted new_files) ∧
                 accounted st (loop st).2) as (evs & Htr & Hpre & Hall & Hacc).
  { unfold loop. case_decide as Hne; [apply for_each_reads|].
    rewrite Hne. exists []. cbn. rewrite app_nil_r.
    repeat split; [done|apply accounted_refl]. }
  destruct (loop st) as [[e|[]] st1]; cbn [fst snd] in *.
  - exists evs. by repeat split.
  - exists (evs ++ [EvSleep 1]). split; [cbn; by rewrite Htr, <- app_assoc|].
    rewrite reads_app. cbn. rewrite app_nil_r. split; [done|]. split; [auto|].
    eapply accounted_trans; [exact Hacc|apply (sleep_accounted st1 1)].
Qed.

Lemma sorted_ascending (s : gset string) :
  StronglySorted String.le (sorted s) ∧ NoDup (sorted s).
Proof.
  unfold sorted. split.
  - apply (StronglySorted_merge_sort _).
  - rewrite merge_sort_Permutation. apply NoDup_elements.
Qed.

(** Within one poll the files are read in ascending order of their names,
    none twice; they are new files of this poll, starting with the smallest,
    and all of them when the poll ends without an exception. *)
Theorem poll_reads_in_order (p : Poll) (st : Sys) :
  ∃ evs,
    trace (poll p st).2 = trace st ++ evs ∧
    reads evs `prefix_of` sorted (listing p ∖ processed_files st) ∧
    StronglySorted String.le (reads evs) ∧
    NoDup (reads evs) ∧
    (∀ f, f ∈ reads evs → f ∈ listing p ∧ f ∉ processed_files st) ∧
    ((poll p st).1 = inr () →
       ∀ f, f ∈ listing p → f ∉ processed_files st → f ∈ reads evs).
Proof.
  destruct (poll_reads p st) as (evs & Htr & Hpre & Hall & _).
  destruct (sorted_ascending (listing p ∖ processed_files st)) as [Hsorted Hnodup].
  exists evs. split; [done|]. split; [done|].
  destruct Hpre as [rest Hrest]. rewrite Hrest in Hsorted, Hnodup.
  split; [by eapply StronglySorted_app_1_l|].
  split; [by apply NoDup_app in Hnodup as (? & _)|].
  split.
  - intros f Hf. apply elem_of_difference, elem_of_sorted.
    rewrite Hrest. apply elem_of_app. by left.
  - intros Hok f Hin Hnew. rewrite (Hall Hok).
    apply elem_of_sorted, elem_of_difference. done.
Qed.

Lemma run_accounted polls st : accounted st (run polls st).2.
Proof.
  unfold run. revert st. induction polls as [|p polls IH]; intros st;
    [apply accounted_refl|].
  cbn [for_each]. unfold mbind, M_bind.
  destruct (poll_reads p st) as (_ & _ & _ & _ & Hacc).
  destruct (poll p st) as [[e|[]] st1]; cbn [snd] in *; [done|].
  eapply accounted_trans; [exact Hacc|apply IH].
Qed.

(** Over any number of polls the consumed set only grows, and a file enters
    it only after [pd.read_csv] was called on it during these polls. *)
Theorem consumed_files_were_read (polls : list Poll) (st : Sys) :
  ∃ evs,
    trace (run polls st).2 = trace st ++ evs ∧
    processed_files st ⊆ processed_files (run polls st).2 ∧
    ∀ f, f ∈ processed_files (run polls st).2 →
         f ∈ processed_files st ∨ f ∈ reads evs.
Proof. apply run_accounted. Qed.

(** A file whose processing went through is in the consumed set, and no
    later poll ever reads it again. *)
Theorem processed_file_never_read_again f df st st' (polls : list Poll) :
  process_file f df st = (inr (), st') →
  f ∈ processed_files st' ∧
  ∃ evs, trace (run polls st').2 = trace st' ++ evs ∧ f ∉ reads evs.
Proof.
  intros Hrun.
  assert (f ∈ processed_files st') as Hf.
  { apply process_file_inv in Hrun as (? & ? & ? & ? & ? & ? & ? & _ & _ & _ & _ & _ & ->).
    by apply elem_of_union_l, elem_of_singleton. }
  split; [done|]. by apply marked_never_read_again.
Qed.

Lemma for_each_unreadable p (err : string → exn) l st :
  (∀ f, f ∈ l → read_csv p f = inl (err f)) →
  for_each l (attempt p) st
  = (inr (), MkSys (processed_files st) (predicted_action st)
                   (trace st ++ (l ≫= λ f, [EvRead f; EvPrint (error_line f (err f))]))
                   (clock_reads st) (rng_draws st)).
Proof.
  revert st. induction l as [|f l IH]; intros st Herr.
  { cbn. rewrite app_nil_r. by destruct st. }
  cbn [for_each]. unfold mbind at 1, M_bind at 1.
  unfold attempt at 1. unfold mbind at 1, M_bind at 1, emit at 1.
  rewrite (Herr f) by apply list_elem_of_here.
  unfold print, emit. rewrite IH by (intros x Hx; by apply Herr, list_elem_of_further).
  cbn. by rewrite <- !app_assoc.
Qed.

Lemma sorted_empty : sorted ∅ = [].
Proof. unfold sorted. by rewrite elements_empty. Qed.

(** Read errors are contained.  A poll in which [pd.read_csv] raises for every
    new file returns normally: it calls [pd.read_csv] once on each new file,
    in ascending order, prints one "Error reading file" line after each
    call, pauses, and changes neither the consumed set nor anything else of
    the state. *)
Theorem poll_with_unreadable_files (p : Poll) (st : Sys) (err : string → exn) :
  (∀ f, f ∈ listing p → f ∉ processed_files st → read_csv p f = inl (err f)) →
  poll p st
  = (inr (),
     MkSys (processed_files st) (predicted_action st)
           (trace st
            ++ (sorted (listing p ∖ processed_files st)
                  ≫= λ f, [EvRead f; EvPrint (error_line f (err f))])
            ++ [EvSleep 1])
           (clock_reads st) (rng_draws st)).
Proof.
  intros Herr. unfold poll.
  set (new_files := listing p ∖ processed_files st).
  assert (for_each (sorted new_files) (attempt p) st
          = (inr (), MkSys (processed_files st) (predicted_action st)
               (trace st ++ (sorted new_files ≫= λ f, [EvRead f; EvPrint (error_line f (err f))]))
               (clock_reads st) (rng_draws st))) as Hloop.
  { apply for_each_unreadable. intros f Hf.
    apply elem_of_sorted, elem_of_difference in Hf as [Hin Hnew]. by apply Herr. }
  case_decide as Hne.
  - erewrite bind_ok by exact Hloop. unfold sleep, emit. cbn. by rewrite <- app_assoc.
  - rewrite Hne, sorted_empty. unfold mbind, M_bind, mret, M_ret, sleep, emit. cbn.
    done.
Qed.

Lemma poll_only_new p st f :
  only_new p st f → poll p st = (_ ← attempt p f; sleep 1) st.
Proof.
  unfold only_new, poll. intros ->.
  case_decide as Hne; [|by apply non_empty_singleton_L in Hne].
  rewrite sorted_singleton. cbn [for_each]. unfold mbind, M_bind.
  by destruct (attempt p f st) as [[e|[]] st1].
Qed.

Lemma apply_filter_short `{!NumericsLaws N} snippet r rs :
  rows snippet = r :: rs → length r ≤ 27 →
  ∃ e, apply_filter_to_snippet snippet sfreq = inl e.
Proof.
  intros Hrows Hlen. unfold apply_filter_to_snippet, choose_filter.
  destruct (filter_clf_predict _) as [e|c]; cbn; [by eexists|].
  destruct (filter_label_encoder_inverse_transform c) as [e|name]; cbn; [by eexists|].
  destruct (mapping_default name) as [k ->].
  destruct (bandpass_filter_short k r Hlen) as [msg Hmsg].
  eexists. unfold condition. rewrite Hrows.
  by erewrite mapM_result_raise.
Qed.

(** A recording of at most 27 samples ends the process.  When the only new
    file of a poll parses into a frame with at least one channel column and
    at most 27 data rows, the window is the whole recording, and filter
    selection or [filtfilt] raises.  The exception leaves the loop: later
    polls do not run, nothing is printed, and the file is not in the consumed
    set. *)
Theorem short_recording_ends_the_loop `{!NumericsLaws N}
    (p : Poll) (polls : list Poll) (st : Sys) f df c0 c1 cs :
  only_new p st f →
  read_csv p f = inr df →
  columns df = c0 :: c1 :: cs →
  length (values df) ≤ 27 →
  ∃ e,
    run (p :: polls) st
    = (inl e,
       MkSys (processed_files st) (predicted_action st)
             (trace st ++ [EvRead f; EvTime (clock (clock_reads st))])
             (S (clock_reads st)) (rng_draws st)).
Proof.
  intros Hnew Hread Hcols Hlen.
  destruct (apply_filter_short (iloc_from1_T df)
              ((λ r, default nan (r !! 1)) <$> values df)
              ((λ j, (λ r, default nan (r !! j)) <$> values df) <$> seq 2 (length cs)))
    as [e He].
  { unfold iloc_from1_T. rewrite Hcols. cbn. by rewrite ?Nat.sub_0_r. }
  { by rewrite length_fmap. }
  exists e. unfold run. cbn [for_each].
  apply bind_raise. rewrite (poll_only_new _ _ _ Hnew).
  apply bind_raise. unfold attempt. rewrite Hread.
  erewrite bind_ok by reflexivity.
  unfold process_file, iloc_col0. rewrite Hcols.
  unfold mbind at 1, M_bind at 1, lift at 1. cbn [mret result_ret].
  unfold select_window, shape.
  replace (n_cols (iloc_from1_T df)) with (length (values df)) by done.
  case_decide as Hlong; [unfold snippet_length in Hlong; lia|].
  unfold mbind, M_bind, mret, M_ret, time_time, lift. rewrite He. cbn.
  by rewrite <- app_assoc.
Qed.

Lemma select_window_keeps eeg_data st r st1 :
  select_window eeg_data st = (r, st1) →
  processed_files st1 = processed_files st ∧
  predicted_action st1 = predicted_action st.
Proof.
  unfold select_window, shape. case_decide.
  - unfold mbind, M_bind, randint. case_decide; by intros [= <- <-].
  - by intros [= <- <-].
Qed.

(** A class index outside the table of the action model.  When the stages up
    to the action model succeed and the model answers a class that is not
    0, 1, 2 or 3, the dictionary lookup raises [KeyError]: the
    "Chosen Filter" line has been printed, no "Predicted Action" line
    follows, and the file is not put into the consumed set. *)
Theorem unknown_class_raises_KeyError f df st ts window st1 out name features c :
  iloc_col0 df = inr ts →
  select_window (iloc_from1_T df) st = (inr window, st1) →
  apply_filter_to_snippet window sfreq = inr (out, name) →
  extract_features_from_array out sfreq = inr features →
  clf_predict features = inr c →
  (c < 0 ∨ 3 < c)%Z →
  ∃ msg st',
    process_file f df st = (raise KeyError msg, st') ∧
    printed (trace st') = printed (trace st) ++ [line ("Chosen Filter: " +:+ name)] ∧
    processed_files st' = processed_files st ∧
    predicted_action st' = predicted_action st.
Proof.
  intros Hts Hwin Hfilter Hfeat Hclf Hc.
  destruct (select_window_trace _ _ _ _ Hwin) as (Hproc & _ & pre & Htr & Hquiet & _).
  assert (lookup_action c = raise KeyError "predicted_numeric[0]") as Hlookup.
  { unfold lookup_action, action_mapping.
    rewrite !lookup_insert_ne, lookup_empty by lia. done. }
  eexists _, _. split.
  - unfold process_file. rewrite Hts.
    unfold mbind at 1, M_bind at 1, lift at 1.
    erewrite bind_ok by exact Hwin.
    erewrite bind_ok by reflexivity.
    unfold mbind at 1, M_bind at 1, lift at 1. rewrite Hfilter.
    erewrite bind_ok by reflexivity.
    unfold mbind at 1, M_bind at 1, lift at 1. rewrite Hfeat.
    unfold mbind at 1, M_bind at 1, lift at 1. rewrite Hclf.
    unfold mbind at 1, M_bind at 1, lift at 1. rewrite Hlookup.
    reflexivity.
  - destruct (select_window_keeps _ _ _ _ Hwin) as [_ Hlabel].
    cbn [trace processed_files predicted_action]. rewrite Htr. split; [|done].
    rewrite !printed_app, Hquiet, app_nil_r.
    change (printed [EvTime (clock (clock_reads st1))]) with (@nil string).
    by rewrite app_nil_r.
Qed.

(** Only two decoded names change the conditioning.  For every decoded name
    other than "Blink" and "Eyebrow" - "Biting" and "Jaw Clench" included -
    [choose_filter] hands out the same filter, the band pass 20-50 Hz. *)
Theorem choose_filter_jaw_unless_blink_or_eyebrow snippet fs c name :
  filter_clf_predict [extract_filter_features snippet fs] = inr c →
  filter_label_encoder_inverse_transform c = inr name →
  name ≠ "Blink" → name ≠ "Eyebrow" →
  choose_filter snippet fs = inr (filter_jaw, name).
Proof.
  intros Hc Hn Hblink Heyebrow.
  rewrite (choose_filter_ok _ _ _ _ Hc Hn). do 2 f_equal.
  unfold mapping.
  destruct (decide (name = "Biting")) as [->|Hbiting]; [done|].
  rewrite lookup_insert_ne by done.
  rewrite lookup_insert_ne by done.
  rewrite lookup_insert_ne by done.
  destruct (decide (name = "Jaw Clench")) as [->|Hjaw]; [done|].
  by rewrite lookup_insert_ne, lookup_empty.
Qed.

End loop_more.

Lemma processed_file_never_read_again_witness :
  "buffer_01.csv" ∈ RealTime.processed_files
     (RealTime.process_file (N:=Demo.numerics) (A:=Demo.artifacts "Blink") (E:=Demo.env)
        "buffer_01.csv" Demo.frame_30 (RealTime.startup ∅)).2.
Proof.
  assert (RealTime.process_file (N:=Demo.numerics) (A:=Demo.artifacts "Blink") (E:=Demo.env)
            "buffer_01.csv" Demo.frame_30 (RealTime.startup ∅)
          = (inr (),
             (RealTime.process_file (N:=Demo.numerics) (A:=Demo.artifacts "Blink")
                (E:=Demo.env) "buffer_01.csv" Demo.frame_30 (RealTime.startup ∅)).2))
    as Hrun by (vm_compute; reflexivity).
  exact (proj1 (processed_file_never_read_again _ _ _ _ [Demo.poll_30] Hrun)).
Defined.

Lemma poll_with_unreadable_files_witness :
  RealTime.reads (RealTime.trace
    (RealTime.poll (N:=Demo.numerics) (A:=Demo.artifacts "Blink") (E:=Demo.env)
       Samples.poll_two_unreadable (RealTime.startup ∅)).2)
  = ["buffer_01.csv"; "buffer_02.csv"].
Proof.
  rewrite (poll_with_unreadable_files (N:=Demo.numerics) (A:=Demo.artifacts "Blink")
             (E:=Demo.env) Samples.poll_two_unreadable (RealTime.startup ∅)
             (λ _, Exn EmptyDataError "No columns to parse from file")).
  - vm_compute. reflexivity.
  - intros f _ _. reflexivity.
Defined.

Lemma short_recording_ends_the_loop_witness :
  ∃ e, (RealTime.run (N:=Demo.numerics) (A:=Demo.artifacts "Blink") (E:=Demo.env)
          [Demo.poll_of "buffer_01.csv" (inr Samples.frame_20); Demo.poll_30]
          (RealTime.startup ∅)).1 = inl e.
Proof.
  destruct (short_recording_ends_the_loop (N:=Demo.numerics) (A:=Demo.artifacts "Blink")
              (E:=Demo.env) (NumericsLaws0:=demo_numerics_laws)
              (Demo.poll_of "buffer_01.csv" (inr Samples.frame_20)) [Demo.poll_30]
              (RealTime.startup ∅) "buffer_01.csv" Samples.frame_20
              "timestamps" "TP9" ["AF7"]) as [e He].
  - unfold Ledger.only_new. vm_compute. reflexivity.
  - reflexivity.
  - reflexivity.
  - vm_compute. lia.
  - exists e. by rewrite He.
Defined.

Lemma unknown_class_raises_KeyError_witness :
  ∃ msg st',
    RealTime.process_file (N:=Demo.numerics) (A:=Samples.artifacts_class "Blink" 7)
      (E:=Demo.env) "buffer_01.csv" Demo.frame_30 (RealTime.startup ∅)
    = (raise KeyError msg, st') ∧
    RealTime.printed (RealTime.trace st') = [RealTime.line "Chosen Filter: Blink"].
Proof.
  destruct (unknown_class_raises_KeyError (N:=Demo.numerics)
              (A:=Samples.artifacts_class "Blink" 7) (E:=Demo.env)
              "buffer_01.csv" Demo.frame_30 (RealTime.startup ∅)
              (replicate 30 0%float) Demo.window_30 (RealTime.startup ∅)
              (Numpy.Mat Demo.window_30) "Blink"
              (RealTime.extract_features_from_sample (N:=Demo.numerics)
                 Demo.window_30 RealTime.sfreq) 7%Z)
    as (msg & st' & Hrun & Hprinted & _).
  - reflexivity.
  - vm_compute. reflexivity.
  - vm_compute. reflexivity.
  - reflexivity.
  - reflexivity.
  - right. lia.
  - exists msg, st'. split; [exact Hrun|exact Hprinted].
Defined.

Lemma choose_filter_jaw_unless_blink_or_eyebrow_witness :
  RealTime.choose_filter (N:=Demo.numerics) (A:=Demo.artifacts "Biting")
    Demo.window_30 RealTime.sfreq
  = inr (RealTime.filter_jaw (N:=Demo.numerics), "Biting").
Proof.
  apply (choose_filter_jaw_unless_blink_or_eyebrow (N:=Demo.numerics)
           (A:=Demo.artifacts "Biting") Demo.window_30 RealTime.sfreq 1%Z "Biting").
  - reflexivity.
  - reflexivity.
  - discriminate.
  - discriminate.
Defined.

(** ** Features at training time and at inference time *)

Section features_more.
Import Numpy RealTime Spec.
Context {N : Numerics}.

(** The filter features the filter model is trained on are the ones it is
    asked about at inference: for every data set and sampling rate, row [i] of
    the trainer's [X_features] is [extract_filter_features] of the real-time
    path on snippet [i], and there is one row of six features per snippet. *)
Theorem filter_features_agree (X : list matrix) (fs : float) :
  FilterTrainer.X_features X fs = (λ sample, extract_filter_features sample fs) <$> X ∧
  length (FilterTrainer.X_features X fs) = length X ∧
  Forall (λ row, length row = 6) (FilterTrainer.X_features X fs).
Proof.
  split; [done|]. unfold FilterTrainer.X_features. split; [by rewrite length_map|].
  by apply Forall_map, Forall_true.
Qed.

Lemma trainer_loop (batch : list matrix) sfreq (acc : list (list float)) :
  foldl (λ features sample,
    let feature_vector :=
      foldl (λ feature_vector channel,
               let '(freqs, psd) := welch channel sfreq (256 `min` length channel) in
               let feature_vector := feature_vector ++ [np_mean psd] in
               feature_vector ++ [np_std psd])
            [] (rows sample) in
    let feature_vector := feature_vector ++ map np_mean (rows sample) in
    let feature_vector := feature_vector ++ map np_std (rows sample) in
    let feature_vector := feature_vector ++ map skew (rows sample) in
    let feature_vector := feature_vector ++ map kurtosis (rows sample) in
    features ++ [feature_vector]) acc batch
  = acc ++ ((λ sample, layout sfreq (rows sample)) <$> batch).
Proof.
  revert acc. induction batch as [|sample batch IH]; intros acc; cbn.
  - by rewrite app_nil_r.
  - rewrite IH, psd_loop_trainer. cbn. unfold layout.
    by rewrite <- !app_assoc.
Qed.

(** On a batch of any size the trainer's [extract_features] returns one row
    per sample, in order, and each row is what the real-time extractor
    returns for that sample; for well-formed samples of [C] channels it has
    [6C] entries. *)
Theorem extract_features_batch (eeg_data : list matrix) (sfreq : float) :
  Trainer.extract_features eeg_data sfreq
    = (eeg_data ≫= λ sample, extract_features_from_sample sample sfreq) ∧
  length (Trainer.extract_features eeg_data sfreq) = length eeg_data ∧
  Forall2 (λ sample row, wf_matrix sample → length row = 6 * n_rows sample)
          eeg_data (Trainer.extract_features eeg_data sfreq).
Proof.
  assert (Trainer.extract_features eeg_data sfreq
          = (λ sample, layout sfreq (rows sample)) <$> eeg_data) as Hrows.
  { unfold Trainer.extract_features. by rewrite trainer_loop. }
  rewrite Hrows. clear Hrows. split; [|split].
  - induction eeg_data as [|sample batch IH]; [done|].
    by rewrite fmap_cons, bind_cons, extract_features_from_sample_layout, <- IH.
  - by rewrite length_fmap.
  - apply Forall2_fmap_r, Forall_Forall2_diag, Forall_forall.
    intros sample _ [Hlen _]. unfold layout.
    rewrite !length_app, pairs_length, !length_fmap. lia.
Qed.

Lemma mask_select_zip {X Y} (p : X → bool) (xs : list X) (ys : list Y) :
  length xs = length ys →
  mask_select (map p xs) ys = (filter (λ q, p q.2 = true) (zip ys xs)).*1 ∧
  mask_select (map p xs) xs = (filter (λ q, p q.2 = true) (zip ys xs)).*2.
Proof.
  revert ys. induction xs as [|x xs IH]; intros [|y ys] Hlen; try done.
  injection Hlen as Hlen. destruct (IH ys Hlen) as [IH1 IH2].
  unfold mask_select in *.
  change (zip (y :: ys) (x :: xs)) with ((y, x) :: zip ys xs).
  rewrite filter_cons. cbn [snd].
  destruct (p x) eqn:Hp.
  - rewrite decide_True by done. cbn. rewrite Hp. cbn. by rewrite IH1, IH2.
  - rewrite decide_False by done. cbn. rewrite Hp. by rewrite IH1, IH2.
Qed.

(** Band power integrates the band and nothing else.  When [welch] returns
    as many densities as frequencies, [compute_band_power] hands
    [np.trapezoid] exactly the (density, frequency) pairs whose frequency [f]
    satisfies [lowcut <= f <= highcut], in their original order and still
    paired; a frequency outside the band, or a NaN, contributes nothing. *)
Theorem band_power_integrates_band_only signal fs lowcut highcut freqs psd :
  welch signal fs (256 `min` length signal) = (freqs, psd) →
  length freqs = length psd →
  let in_band := filter (λ q : float * float,
                           ((lowcut <=? q.2)%float && (q.2 <=? highcut)%float) = true)
                        (zip psd freqs) in
  compute_band_power signal fs lowcut highcut = np_trapezoid in_band.*1 in_band.*2 ∧
  FilterTrainer.compute_band_power signal fs lowcut highcut
    = np_trapezoid in_band.*1 in_band.*2 ∧
  in_band `sublist_of` zip psd freqs ∧
  Forall (λ q, (lowcut <=? q.2)%float = true ∧ (q.2 <=? highcut)%float = true) in_band.
Proof.
  intros Hwelch Hlen. cbn zeta.
  destruct (mask_select_zip (λ f, (lowcut <=? f)%float && (f <=? highcut)%float)
              freqs psd Hlen) as [Hpsd Hfreqs].
  unfold compute_band_power, FilterTrainer.compute_band_power.
  rewrite Hwelch, Hpsd, Hfreqs. split; [done|]. split; [done|].
  split; [apply sublist_filter|].
  apply Forall_forall. intros q Hq.
  apply list_elem_of_filter in Hq as [Hq _]. by apply andb_true_iff in Hq.
Qed.

(** Every label the filter trainer can produce names a filter of the
    real-time path: when [filter_labels] succeeds, each of its names is one
    of "Biting", "Blink", "Eyebrow", "Jaw Clench" and a key of the dictionary
    of [choose_filter], so a codec fitted on them never decodes to a name
    that needs the fallback. *)
Theorem filter_labels_are_filter_names (lower : string → string) (y labels : list string) :
  FilterTrainer.filter_labels lower y = inr labels →
  length labels = length y ∧
  Forall (λ name, name ∈ filter_names ∧
                  ∃ k, name = kind_name k ∧ mapping !! name = Some (kind_filter k))
         labels.
Proof.
  revert labels. induction y as [|label y IH]; intros labels.
  { intros [= <-]. by split. }
  unfold FilterTrainer.filter_labels. cbn.
  destruct (FilterTrainer.filter_mapping !! lower label) as [name|] eqn:Hname; [|done].
  cbn. fold (FilterTrainer.filter_labels lower y).
  destruct (FilterTrainer.filter_labels lower y) as [e|names]; [done|].
  cbn. intros [= <-]. destruct (IH names eq_refl) as [Hlen Hall].
  split; [cbn; by rewrite Hlen|]. constructor; [|done].
  unfold FilterTrainer.filter_mapping in Hname.
  apply lookup_insert_Some in Hname as [[_ <-]|[_ Hname]];
    [split; [repeat first [apply list_elem_of_here|apply list_elem_of_further]
            |by exists JawClench]|].
  apply lookup_insert_Some in Hname as [[_ <-]|[_ Hname]];
    [split; [repeat first [apply list_elem_of_here|apply list_elem_of_further]
            |by exists Biting]|].
  apply lookup_insert_Some in Hname as [[_ <-]|[_ Hname]];
    [split; [repeat first [apply list_elem_of_here|apply list_elem_of_further]
            |by exists Blink]|].
  apply lookup_insert_Some in Hname as [[_ <-]|[_ Hname]];
    [split; [repeat first [apply list_elem_of_here|apply list_elem_of_further]
            |by exists Eyebrow]|].
  by rewrite lookup_empty in Hname.
Qed.

End features_more.

Lemma band_power_integrates_band_only_witness :
  RealTime.compute_band_power (N:=Demo.numerics) [10; 30; 60]%float 256 20 50 = 30%float.
Proof.
  destruct (band_power_integrates_band_only (N:=Demo.numerics)
              [10; 30; 60]%float 256%float 20%float 50%float
              [10; 30; 60]%float [10; 30; 60]%float) as (Hpower & _).
  - reflexivity.
  - reflexivity.
  - rewrite Hpower. vm_compute. reflexivity.
Defined.

Lemma filter_labels_are_filter_names_witness :
  FilterTrainer.filter_labels id ["jaw"; "blink"] = inr ["Jaw Clench"; "Blink"] ∧
  Forall (λ name, name ∈ Spec.filter_names) ["Jaw Clench"; "Blink"].
Proof.
  split; [reflexivity|].
  eapply Forall_impl;
    [exact (proj2 (filter_labels_are_filter_names (N:=Demo.numerics) id
                     ["jaw"; "blink"] ["Jaw Clench"; "Blink"] eq_refl))|].
  intros name [Hname _]. exact Hname.
Defined.

(** ** Bringing the training samples to one length *)

Section loader.
Import Numpy Loader.

Lemma standardize_sample_rows (target_length : nat) (sample : matrix) :
  wf_matrix sample →
  rows (standardize_sample target_length sample)
  = (λ r, take target_length r ++ replicate (target_length - n_cols sample) 0%float)
    <$> rows sample ∧
  n_rows (standardize_sample target_length sample) = n_rows sample ∧
  n_cols (standardize_sample target_length sample) = target_length.
Proof.
  intros [_ Hcols]. unfold standardize_sample, shape. case_decide as Hlong.
  - unfold slice_cols. cbn [rows n_rows n_cols]. split; [|split; [done|lia]].
    apply list_fmap_ext. intros i r Hr. cbn.
    rewrite Nat.sub_0_r, drop_0.
    replace (target_length - n_cols sample) with 0 by lia.
    by rewrite app_nil_r.
  - unfold np_pad_cols. cbn [rows n_rows n_cols]. split; [|split; [done|lia]].
    apply Forall_fmap_ext_1. eapply Forall_impl; [exact Hcols|].
    intros r Hr. cbn in *. rewrite take_ge by lia. done.
Qed.

Lemma standardize_sample_shape (target_length : nat) (sample : matrix) :
  wf_matrix sample →
  wf_matrix (standardize_sample target_length sample) ∧
  shape (standardize_sample target_length sample) = (n_rows sample, target_length) ∧
  (target_length ≤ n_cols sample →
   rows (standardize_sample target_length sample) = take target_length <$> rows sample).
Proof.
  intros Hwf.
  destruct (standardize_sample_rows target_length sample Hwf) as (Hrows & Hn & Hc).
  destruct Hwf as [Hlen Hcols].
  split; [|split].
  - split.
    + by rewrite Hrows, length_fmap, Hn.
    + rewrite Hrows, Hc. apply Forall_fmap. eapply Forall_impl; [exact Hcols|].
      intros r Hr. cbn in *. rewrite length_app, length_take, length_replicate. lia.
  - unfold shape. by rewrite Hn, Hc.
  - intros Hle. rewrite Hrows. apply list_fmap_ext. intros i r _. cbn.
    replace (target_length - n_cols sample) with 0 by lia. by rewrite app_nil_r.
Qed.

(** [standardize_length] on one sample: a well-formed sample of [C] channels
    comes out well-formed with shape [(C, target_length)]; each channel is
    its first [target_length] samples, followed by zeros up to that length
    when the channel was shorter.  A sample that already has the target
    length is left as it is. *)
Theorem standardize_sample_spec (target_length : nat) (sample : matrix) :
  wf_matrix sample →
  let out := standardize_sample target_length sample in
  wf_matrix out ∧
  shape out = (n_rows sample, target_length) ∧
  rows out
  = (λ r, take target_length r ++ replicate (target_length - n_cols sample) 0%float)
    <$> rows sample ∧
  (target_length ≤ n_cols sample → rows out = take target_length <$> rows sample) ∧
  (n_cols sample = target_length → out = sample).
Proof.
  intros Hwf. cbn zeta.
  destruct (standardize_sample_rows target_length sample Hwf) as (Hrows & Hn & Hc).
  destruct Hwf as [Hlen Hcols].
  split; [|split; [|split; [done|split]]].
  - split.
    + by rewrite Hrows, length_fmap, Hn.
    + rewrite Hrows, Hc. apply Forall_fmap. eapply Forall_impl; [exact Hcols|].
      intros r Hr. cbn in *. rewrite length_app, length_take, length_replicate. lia.
  - unfold shape. by rewrite Hn, Hc.
  - intros Hle. rewrite Hrows. apply list_fmap_ext. intros i r _. cbn.
    replace (target_length - n_cols sample) with 0 by lia. by rewrite app_nil_r.
  - intros Heq. destruct sample as [nr nc rs]. cbn in *. subst nc.
    unfold standardize_sample, shape. cbn [n_rows n_cols].
    case_decide; [lia|]. unfold np_pad_cols. cbn [n_rows n_cols rows].
    rewrite Nat.sub_diag, Nat.add_0_r. f_equal.
    rewrite <- (list_fmap_id rs) at 2. apply list_fmap_ext.
    intros i r _. cbn. by rewrite app_nil_r.
Qed.

Lemma standardize_loop (target_length : nat) (data_list acc : list matrix) :
  foldl (λ standardized_data sample,
           standardized_data ++ [standardize_sample target_length sample])
        acc data_list
  = acc ++ (standardize_sample target_length <$> data_list).
Proof.
  revert acc. induction data_list as [|sample data_list IH]; intros acc; cbn.
  - by rewrite app_nil_r.
  - by rewrite IH, <- app_assoc.
Qed.

Lemma np_array3_ok (l : list matrix) (sh : nat * nat) :
  Forall (λ m, shape m = sh) l → np_array3 l = inr l.
Proof.
  intros Hall. destruct l as [|m l]; [done|]. unfold np_array3.
  rewrite decide_True; [done|].
  apply Forall_cons in Hall as Hm. destruct Hm as [Hm _].
  eapply Forall_impl; [exact Hall|]. intros m' Hm'. cbn in *. congruence.
Qed.

Lemma standardized_shapes (data_list : list matrix) (target_length C : nat) :
  Forall (λ sample, wf_matrix sample ∧ n_rows sample = C) data_list →
  Forall (λ out, wf_matrix out ∧ shape out = (C, target_length))
         (standardize_sample target_length <$> data_list).
Proof.
  intros Hall. apply Forall_fmap. eapply Forall_impl; [exact Hall|].
  intros sample [Hwf HC]. cbn beta.
  destruct (standardize_sample_shape target_length sample Hwf) as (Hwf' & Hshape & _).
  split; [done|]. by rewrite Hshape, HC.
Qed.

Lemma standardize_length_run (data_list : list matrix) (target_length C : nat) :
  Forall (λ sample, wf_matrix sample ∧ n_rows sample = C) data_list →
  standardize_length data_list target_length
  = inr (standardize_sample target_length <$> data_list).
Proof.
  intros Hall. unfold standardize_length. rewrite standardize_loop. cbn [app].
  apply (np_array3_ok _ (C, target_length)).
  eapply Forall_impl; [exact (standardized_shapes _ target_length _ Hall)|].
  by intros out [_ Hshape].
Qed.

(** Samples with one channel count.  When all samples are well-formed and
    have [C] channels, [standardize_length] succeeds and returns as many
    samples as it got, in order, each well-formed and of shape
    [(C, target_length)]. *)
Theorem standardize_length_uniform (data_list : list matrix) (target_length C : nat) :
  Forall (λ sample, wf_matrix sample ∧ n_rows sample = C) data_list →
  standardize_length data_list target_length
    = inr (standardize_sample target_length <$> data_list) ∧
  Forall (λ out, wf_matrix out ∧ shape out = (C, target_length))
         (standardize_sample target_length <$> data_list).
Proof.
  intros Hall. split.
  - by eapply standardize_length_run.
  - by apply standardized_shapes.
Qed.

(** Samples with different channel counts cannot be stacked: when some sample
    has another number of channels than the first, [np.array] raises
    [ValueError] and [standardize_length] returns nothing. *)
Theorem standardize_length_mixed_channels (first other : matrix)
    (rest : list matrix) (target_length : nat) :
  wf_matrix first → wf_matrix other → other ∈ rest →
  n_rows other ≠ n_rows first →
  ∃ msg, standardize_length (first :: rest) target_length = raise ValueError msg.
Proof.
  intros Hfirst Hother Hin Hdiff. unfold standardize_length.
  rewrite standardize_loop. cbn [app fmap list_fmap]. unfold np_array3.
  rewrite decide_False; [by eexists|].
  intros Hall. apply Forall_cons in Hall as [_ Hall].
  rewrite Forall_fmap, Forall_forall in Hall. specialize (Hall other Hin).
  assert (shape (standardize_sample target_length other)
          = shape (standardize_sample target_length first)) as Hsame by exact Hall.
  destruct (standardize_sample_shape target_length first Hfirst) as (_ & Hs1 & _).
  destruct (standardize_sample_shape target_length other Hother) as (_ & Hs2 & _).
  rewrite Hs1, Hs2 in Hsame. congruence.
Qed.

Lemma min_loop_le (rest : list matrix) (start : nat) :
  foldl (λ m s, m `min` n_cols s) start rest ≤ start ∧
  Forall (λ s, foldl (λ m s, m `min` n_cols s) start rest ≤ n_cols s) rest ∧
  (foldl (λ m s, m `min` n_cols s) start rest = start ∨
   ∃ s, s ∈ rest ∧ foldl (λ m s, m `min` n_cols s) start rest = n_cols s).
Proof.
  revert start. induction rest as [|s rest IH]; intros start; cbn.
  { split; [done|]. split; [constructor|by left]. }
  destruct (IH (start `min` n_cols s)) as (Hle & Hall & Hex).
  split; [lia|]. split; [constructor; [lia|done]|].
  destruct Hex as [Heq|(s' & Hs' & Heq)].
  - destruct (Nat.min_spec start (n_cols s)) as [[_ Hmin]|[_ Hmin]]; rewrite Hmin in *.
    + by left.
    + right. exists s. split; [apply list_elem_of_here|done].
  - right. exists s'. split; [by apply list_elem_of_further|done].
Qed.

(** In the data loaders nothing is ever padded.  The target length is the
    length of the shortest sample, so for a non-empty list of well-formed
    samples of [C] channels the loader succeeds, every output channel is a
    prefix of the input channel (its first [t] samples, no zero appended),
    [t] is the length of some sample and no sample is shorter.  On an empty
    list [min] raises [ValueError]. *)
Theorem standardize_to_shortest_trims (all_data : list matrix) (C : nat) :
  all_data ≠ [] →
  Forall (λ sample, wf_matrix sample ∧ n_rows sample = C) all_data →
  ∃ t out,
    min_timepoints all_data = inr t ∧
    standardize_to_shortest all_data = inr out ∧
    (∃ sample, sample ∈ all_data ∧ n_cols sample = t) ∧
    Forall2 (λ sample o,
               t ≤ n_cols sample ∧ shape o = (C, t) ∧
               rows o = take t <$> rows sample)
            all_data out ∧
    standardize_to_shortest [] = raise ValueError "min() arg is an empty sequence".
Proof.
  intros Hne Hall. destruct all_data as [|first rest]; [done|].
  set (t := foldl (λ m s, m `min` n_cols s) (n_cols first) rest).
  destruct (min_loop_le rest (n_cols first)) as (Hle & Hrest & Hex). fold t in Hle, Hrest, Hex.
  pose proof (standardize_length_run (first :: rest) t C Hall) as Hrun.
  exists t, (standardize_sample t <$> first :: rest).
  split; [done|]. split; [unfold standardize_to_shortest; cbn; exact Hrun|].
  split.
  { destruct Hex as [Heq|(s & Hs & Heq)].
    - exists first. split; [apply list_elem_of_here|done].
    - exists s. split; [by apply list_elem_of_further|done]. }
  split; [|done].
  apply Forall2_fmap_r, Forall_Forall2_diag.
  assert (Forall (λ s, t ≤ n_cols s) (first :: rest)) as Hbound by (by constructor).
  apply Forall_forall. intros sample Hin.
  rewrite Forall_forall in Hall, Hbound.
  destruct (Hall sample Hin) as [Hwf HC]. specialize (Hbound sample Hin).
  destruct (standardize_sample_shape t sample Hwf) as (_ & Hshape & Htrim).
  split; [done|]. split; [by rewrite Hshape, HC|by apply Htrim].
Qed.

End loader.

Lemma standardize_sample_spec_witness :
  Numpy.rows (Loader.standardize_sample 3 Samples.sample_1x2) = [[1; 2; 0]%float] ∧
  Numpy.rows (Loader.standardize_sample 2 Samples.sample_1x3) = [[3; 4]%float].
Proof.
  split.
  - destruct (standardize_sample_spec 3 Samples.sample_1x2) as (_ & _ & Hrows & _).
    + split; [reflexivity|]. repeat constructor.
    + rewrite Hrows. reflexivity.
  - reflexivity.
Defined.

Lemma standardize_length_uniform_witness :
  Loader.standardize_length [Samples.sample_1x2; Samples.sample_1x3] 2
  = inr [Samples.sample_1x2; Numpy.Matrix 1 2 [[3; 4]%float]].
Proof.
  rewrite (proj1 (standardize_length_uniform
                    [Samples.sample_1x2; Samples.sample_1x3] 2 1
                    ltac:(repeat constructor))).
  reflexivity.
Defined.

Lemma standardize_length_mixed_channels_witness :
  ∃ msg, Loader.standardize_length [Samples.sample_1x2; Samples.sample_2x2] 2
         = raise ValueError msg.
Proof.
  apply (standardize_length_mixed_channels Samples.sample_1x2 Samples.sample_2x2
           [Samples.sample_2x2] 2).
  - split; [reflexivity|]. repeat constructor.
  - split; [reflexivity|]. repeat constructor.
  - apply list_elem_of_here.
  - simpl. lia.
Defined.

Lemma standardize_to_shortest_trims_witness :
  Loader.standardize_to_shortest [Samples.sample_1x3; Samples.sample_1x2]
  = inr [Numpy.Matrix 1 2 [[3; 4]%float]; Samples.sample_1x2].
Proof.
  destruct (standardize_to_shortest_trims [Samples.sample_1x3; Samples.sample_1x2] 1)
    as (t & out & _ & Hrun & _).
  - discriminate.
  - repeat constructor.
  - reflexivity.
Defined.

(** ** Naming recordings *)

Section recorder.
Import Recorder.

Lemma append_cons (x : Ascii.ascii) (a b : string) :
  String x a +:+ b = String x (a +:+ b).
Proof. reflexivity. Qed.

Lemma append_nil (b : string) : EmptyString +:+ b = b.
Proof. reflexivity. Qed.

Lemma append_assoc (a b c : string) : (a +:+ b) +:+ c = a +:+ (b +:+ c).
Proof.
  induction a as [|x a IH]; [done|]. by rewrite !append_cons, IH.
Qed.

Lemma strip_prefix_append (p r : string) : strip_prefix p (p +:+ r) = Some r.
Proof.
  induction p as [|a p IH]; [by destruct r|].
  rewrite append_cons. cbn. by rewrite Ascii.eqb_refl.
Qed.

Lemma span_digits_append (digits : string) (c : Ascii.ascii) (tail : string) :
  all_digits digits = true → is_digit c = false →
  span_digits (digits +:+ String c tail) = (digits, String c tail).
Proof.
  intros Hd Hc. induction digits as [|x digits IH].
  - rewrite append_nil. cbn. by rewrite Hc.
  - cbn in Hd. apply andb_true_iff in Hd as [Hx Hd].
    rewrite append_cons. cbn. by rewrite Hx, IH.
Qed.

Lemma string_of_uint_digits (d : Decimal.uint) :
  all_digits (NilEmpty.string_of_uint d) = true.
Proof. induction d; cbn; done. Qed.

Lemma to_uint_not_nil (n : nat) : Nat.to_uint n ≠ Decimal.Nil.
Proof.
  intros Hnil. pose proof (Unsigned.of_to n) as Hn. rewrite Hnil in Hn.
  cbn in Hn. subst n. discriminate.
Qed.

Lemma format_02d_digits (n : nat) :
  all_digits (format_02d n) = true ∧ format_02d n ≠ EmptyString.
Proof.
  unfold format_02d. pose proof (string_of_uint_digits (Nat.to_uint n)) as Hd.
  pose proof (to_uint_not_nil n) as Hnil.
  destruct (String.length _ <? 2).
  - change ("0" +:+ NilEmpty.string_of_uint (Nat.to_uint n))
      with (String (Ascii.ascii_of_nat 48) (NilEmpty.string_of_uint (Nat.to_uint n))).
    split; [|done]. cbn. exact Hd.
  - split; [done|]. by destruct (Nat.to_uint n).
Qed.

Lemma int_of_format_02d (n : nat) : int_of_digits (format_02d n) = Some n.
Proof.
  unfold format_02d, int_of_digits.
  destruct (String.length _ <? 2).
  - change ("0" +:+ NilEmpty.string_of_uint (Nat.to_uint n))
      with (String (Ascii.ascii_of_nat 48) (NilEmpty.string_of_uint (Nat.to_uint n))).
    cbn [NilEmpty.uint_of_string]. rewrite NilEmpty.usu.
    change (Some (Nat.of_uint (Nat.to_uint n)) = Some n).
    f_equal. apply Unsigned.of_to.
  - rewrite NilEmpty.usu. cbn. f_equal. apply Unsigned.of_to.
Qed.

(** The recorder recognises its own names: a generated name matches the
    pattern and carries its number. *)
Lemma match_number_file_name (prefix : string) (n : nat) :
  match_number prefix (file_name prefix n) = Some n.
Proof.
  unfold match_number, file_name.
  rewrite <- append_assoc, strip_prefix_append.
  destruct (format_02d_digits n) as [Hd Hne].
  rewrite (span_digits_append _ (Ascii.ascii_of_nat 46) "csv") by done.
  rewrite decide_True by (split; [done|by left]).
  apply int_of_format_02d.
Qed.

Lemma max_num_loop (prefix : string) (listing : list string) (start : nat) :
  let result :=
    foldl (λ max_num file,
             match match_number prefix file with
             | Some num => if decide (max_num < num) then num else max_num
             | None => max_num
             end) start listing in
  start ≤ result ∧
  (∀ file num, file ∈ listing → match_number prefix file = Some num → num ≤ result) ∧
  (result = start ∨
   ∃ file, file ∈ listing ∧ match_number prefix file = Some result).
Proof.
  revert start. induction listing as [|file listing IH]; intros start; cbn zeta.
  { split; [done|]. split; [by intros ? ? ?%elem_of_nil|by left]. }
  cbn [foldl].
  set (next := match match_number prefix file with
               | Some num => if decide (start < num) then num else start
               | None => start
               end).
  destruct (IH next) as (Hle & Hall & Hex).
  assert (start ≤ next ∧
          (∀ num, match_number prefix file = Some num → num ≤ next) ∧
          (next = start ∨ match_number prefix file = Some next)) as (Hs & Hf & Hn).
  { unfold next. destruct (match_number prefix file) as [num|].
    - case_decide.
      + split; [lia|]. split; [by intros ? [= <-]|by right].
      + split; [lia|]. split; [intros ? [= <-]; lia|by left].
    - split; [lia|]. split; [done|by left]. }
  split; [lia|]. split.
  - intros f num [->|Hin]%elem_of_cons Hnum.
    + specialize (Hf num Hnum). lia.
    + by eapply Hall.
  - destruct Hex as [Heq|(f & Hin & Hnum)].
    + destruct Hn as [Hn|Hn].
      * left. lia.
      * right. exists file. split; [apply list_elem_of_here|]. by rewrite Heq.
    + right. exists f. split; [by apply list_elem_of_further|done].
Qed.

(** [get_next_filename] numbers the next recording one above the highest
    number in the directory (of ASCII file names).  The name it returns is
    [<prefix>_<n>.csv] with [n] printed in at least two digits; [n] is 1
    when no file of the directory matches the pattern and otherwise one more
    than the number of some matching file; every matching file has a smaller
    number; and the name matches the pattern itself, with number [n]. *)
Theorem get_next_filename_number (listing : list string) (prefix : string) :
  Forall (λ file, is_ascii file = true) listing →
  let n := max_num listing prefix + 1 in
  get_next_filename listing prefix = prefix +:+ "_" +:+ format_02d n +:+ ".csv" ∧
  match_number prefix (get_next_filename listing prefix) = Some n ∧
  (∀ file num, file ∈ listing → match_number prefix file = Some num → num < n) ∧
  (n = 1 ∨ ∃ file, file ∈ listing ∧ match_number prefix file = Some (n - 1)) ∧
  ((∀ file, file ∈ listing → match_number prefix file = None) → n = 1).
Proof.
  intros _. cbn zeta. destruct (max_num_loop prefix listing 0) as (_ & Hall & Hex).
  fold (max_num listing prefix) in Hall, Hex.
  split; [done|]. split; [apply match_number_file_name|]. split.
  - intros file num Hin Hnum. specialize (Hall file num Hin Hnum). lia.
  - split.
    + destruct Hex as [->|(file & Hin & Hnum)]; [by left|].
      right. exists file. split; [done|]. rewrite Hnum. f_equal. lia.
    + intros Hnone. destruct Hex as [->|(file & Hin & Hnum)]; [done|].
      by rewrite (Hnone file Hin) in Hnum.
Qed.

Lemma next_name_not_listed (listing : list string) (prefix : string) :
  get_next_filename listing prefix ∉ listing.
Proof.
  intros Hin.
  destruct (max_num_loop prefix listing 0) as (_ & Hall & _).
  fold (max_num listing prefix) in Hall.
  specialize (Hall _ _ Hin (match_number_file_name prefix _)). lia.
Qed.

Lemma max_num_with_new (listing l : list string) (prefix : string) :
  (∀ file, file ∈ l → file = get_next_filename listing prefix ∨ file ∈ listing) →
  get_next_filename listing prefix ∈ l →
  max_num l prefix = max_num listing prefix + 1.
Proof.
  set (new := get_next_filename listing prefix). intros Hl Hnew.
  assert (match_number prefix new = Some (max_num listing prefix + 1)) as Hnum
    by apply match_number_file_name.
  destruct (max_num_loop prefix listing 0) as (_ & Hall & _).
  fold (max_num listing prefix) in Hall.
  destruct (max_num_loop prefix l 0) as (_ & Hall' & Hex').
  fold (max_num l prefix) in Hall', Hex'.
  pose proof (Hall' new _ Hnew Hnum) as Hge.
  destruct Hex' as [Heq|(file & Hin & Hfile)]; [lia|].
  destruct (Hl file Hin) as [->|Hold].
  - rewrite Hnum in Hfile. by injection Hfile.
  - specialize (Hall file _ Hold Hfile). lia.
Qed.

(** The name of the next recording is not in the listing it was computed
    from: [get_next_filename] never returns the name of a file that
    [os.listdir] has just listed (ASCII file names).  This is a fact about
    one listing; [record_sample] opens the file for writing only after the
    recording, and nothing is said here of files that appear in between. *)
Theorem get_next_filename_fresh (listing : list string) (prefix : string) :
  Forall (λ file, is_ascii file = true) listing →
  get_next_filename listing prefix ∉ listing.
Proof. intros _. apply next_name_not_listed. Qed.

(** Recordings are numbered consecutively.  Let a directory of ASCII file
    names hold the files [listing], and let the file named by
    [get_next_filename] be added to it.  The next call then returns the name
    with the following number, at whatever position [os.listdir] lists the
    new file, and in whatever order it lists all the files. *)
Theorem get_next_filename_counts_up (listing : list string) (prefix : string) :
  Forall (λ file, is_ascii file = true) listing →
  let new := get_next_filename listing prefix in
  let next := file_name prefix (max_num listing prefix + 2) in
  (∀ before after, listing = before ++ after →
     get_next_filename (before ++ new :: after) prefix = next) ∧
  (∀ listing', listing' ≡ₚ new :: listing →
     get_next_filename listing' prefix = next).
Proof.
  intros _. cbn zeta. split.
  - intros before after ->. unfold get_next_filename at 1. f_equal.
    rewrite (max_num_with_new (before ++ after)); [lia| |].
    + intros file [Hin|[->|Hin]%elem_of_cons]%elem_of_app; auto.
      * right. apply elem_of_app. by left.
      * right. apply elem_of_app. by right.
    + apply elem_of_app. right. apply list_elem_of_here.
  - intros listing' Hperm. unfold get_next_filename at 1. f_equal.
    rewrite (max_num_with_new listing); [lia| |].
    + intros file Hin. rewrite Hperm in Hin. by apply elem_of_cons in Hin.
    + rewrite Hperm. apply list_elem_of_here.
Qed.

End recorder.

(** ** Recordings and the order in which they are read *)

Section recording_order.
Import Recorder RealTime Ledger.

Lemma compare_append (p a b : string) :
  String.compare (p +:+ a) (p +:+ b) = String.compare a b.
Proof.
  induction p as [|x p IH]; [done|].
  rewrite !append_cons. cbn [String.compare].
  unfold Ascii.compare. by rewrite N.compare_refl.
Qed.

Lemma compare_same (a : string) : String.compare a a = Eq.
Proof.
  induction a as [|x a IH]; [done|].
  cbn [String.compare]. unfold Ascii.compare. by rewrite N.compare_refl.
Qed.

Lemma compare_Lt_sorts_before (a b : string) :
  String.compare a b = Lt → sorts_before a b.
Proof.
  intros Hlt. split.
  - unfold String.le, String.leb. by rewrite Hlt.
  - intros ->. rewrite compare_same in Hlt. discriminate.
Qed.

(** Below 100 the watcher reads recordings in the order they were made, and
    from 100 on it does not.  For numbers [n < m < 100] the name of recording
    [n] comes before the name of recording [m] in the order of
    [sorted(new_files)]; but the name of recording 100 comes before the names
    of recordings 11 to 99. *)
Theorem names_sort_by_number_below_100 (prefix : string) (n m : nat) :
  n < m → m < 100 →
  sorts_before (file_name prefix n) (file_name prefix m) ∧
  (10 < m → sorts_before (file_name prefix 100) (file_name prefix m)).
Proof.
  intros Hnm Hm. split.
  - apply compare_Lt_sorts_before.
    change (String.compare (prefix +:+ name_suffix n) (prefix +:+ name_suffix m) = Lt).
    rewrite compare_append.
    assert (suffixes_ordered 100 = true) as Hall by (vm_compute; reflexivity).
    unfold suffixes_ordered in Hall. rewrite forallb_forall in Hall.
    specialize (Hall m). rewrite forallb_forall in Hall.
    assert (In n (seq 0 m)) as Hn by (apply in_seq; lia).
    assert (In m (seq 0 100)) as Hm' by (apply in_seq; lia).
    specialize (Hall Hm' n Hn).
    by destruct (String.compare (name_suffix n) (name_suffix m)).
  - intros Hten. apply compare_Lt_sorts_before.
    change (String.compare (prefix +:+ name_suffix 100) (prefix +:+ name_suffix m) = Lt).
    rewrite compare_append.
    assert (hundred_before_eleven = true) as Hall by (vm_compute; reflexivity).
    unfold hundred_before_eleven in Hall. rewrite forallb_forall in Hall.
    assert (In m (seq 11 89)) as Hm' by (apply in_seq; lia).
    specialize (Hall m Hm').
    by destruct (String.compare (name_suffix 100) (name_suffix m)).
Qed.

Context {N : Numerics} {A : Artifacts} {E : Env}.

Lemma poll_nothing_new p st :
  listing p ∖ processed_files st = ∅ → poll p st = sleep 1 st.
Proof.
  unfold poll. intros ->. by rewrite decide_False by (by intros []).
Qed.

(** The recorder and the watcher fit together, as long as no consumed
    recording has been deleted.  Let every file of the intake directory
    (ASCII names) be in the consumed set, and let the directory then also
    hold the file named by [get_next_filename].  When that name is not in the
    consumed set, the next poll reads that file and no other.  When it is -
    the consumed set still holds the name of a deleted recording with the
    highest number - the poll reads nothing, and the new recording is passed
    over. *)
Theorem next_recording_is_read (dir : list string) (prefix : string)
    (p : Poll) (st : Sys) :
  Forall (λ file, is_ascii file = true) dir →
  (∀ file, file ∈ dir → file ∈ processed_files st) →
  listing p = {[get_next_filename dir prefix]} ∪ list_to_set dir →
  ∃ evs, trace (poll p st).2 = trace st ++ evs ∧
         (get_next_filename dir prefix ∉ processed_files st →
          reads evs = [get_next_filename dir prefix]) ∧
         (get_next_filename dir prefix ∈ processed_files st → reads evs = []).
Proof.
  intros _ Hdone Hlisting.
  destruct (decide (get_next_filename dir prefix ∈ processed_files st)) as [Hold|Hfresh].
  - assert (listing p ∖ processed_files st = ∅) as Hnone.
    { rewrite Hlisting. apply set_eq. intros x.
      rewrite elem_of_difference, elem_of_union, elem_of_singleton, elem_of_list_to_set.
      split; [|by intros ?%elem_of_empty].
      intros [[->|Hin] Hnot]; destruct Hnot; auto. }
    rewrite (poll_nothing_new _ _ Hnone). exists [EvSleep 1].
    split; [done|]. split; [done|]. done.
  - assert (only_new p st (get_next_filename dir prefix)) as Hnew.
    { unfold only_new. rewrite Hlisting. apply set_eq. intros x.
      rewrite elem_of_difference, elem_of_union, elem_of_singleton, elem_of_list_to_set.
      split.
      - intros [[->|Hin] Hnot]; [done|]. destruct Hnot. auto.
      - intros ->. split; [by left|done]. }
    rewrite (poll_only_new _ _ _ Hnew). unfold mbind, M_bind.
    destruct (attempt_reads p (get_next_filename dir prefix) st) as (evs & Htr & Hr & _).
    destruct (attempt p (get_next_filename dir prefix) st) as [[e|[]] st1];
      cbn [snd] in *.
    + exists evs. split; [done|]. split; [done|]. by intros ?.
    + exists (evs ++ [EvSleep 1]). split; [cbn; by rewrite Htr, <- app_assoc|].
      split; [|by intros ?]. intros _. rewrite reads_app, Hr. done.
Qed.

End recording_order.

Lemma get_next_filename_number_witness :
  Recorder.get_next_filename ["buffer_07.csv"; "notes.txt"; "buffer_02.csv"] "buffer"
  = "buffer_08.csv".
Proof.
  rewrite (proj1 (get_next_filename_number
                    ["buffer_07.csv"; "notes.txt"; "buffer_02.csv"] "buffer"
                    ltac:(repeat constructor))).
  vm_compute. reflexivity.
Defined.

Lemma get_next_filename_fresh_witness :
  Recorder.get_next_filename ["buffer_99.csv"; "buffer_100.csv"] "buffer"
    = "buffer_101.csv" ∧
  Recorder.get_next_filename ["buffer_99.csv"; "buffer_100.csv"] "buffer"
    ∉ ["buffer_99.csv"; "buffer_100.csv"].
Proof.
  split; [reflexivity|].
  apply (get_next_filename_fresh ["buffer_99.csv"; "buffer_100.csv"] "buffer").
  repeat constructor.
Defined.

Lemma get_next_filename_counts_up_witness :
  Recorder.get_next_filename ["buffer_01.csv"; "notes.txt"] "buffer" = "buffer_02.csv" ∧
  Recorder.get_next_filename ["buffer_01.csv"; "buffer_02.csv"; "notes.txt"] "buffer"
  = "buffer_03.csv".
Proof.
  split; [reflexivity|].
  apply (proj1 (get_next_filename_counts_up ["buffer_01.csv"; "notes.txt"] "buffer"
                  ltac:(repeat constructor))
           ["buffer_01.csv"] ["notes.txt"]).
  reflexivity.
Defined.

Lemma names_sort_by_number_below_100_witness :
  Recorder.sorts_before "buffer_09.csv" "buffer_10.csv" ∧
  Recorder.sorts_before "buffer_100.csv" "buffer_99.csv".
Proof.
  split.
  - apply (proj1 (names_sort_by_number_below_100 "buffer" 9 10 ltac:(lia) ltac:(lia))).
  - apply (proj2 (names_sort_by_number_below_100 "buffer" 9 99 ltac:(lia) ltac:(lia))).
    lia.
Defined.

Lemma next_recording_is_read_witness :
  let p := RealTime.MkPoll ({["buffer_02.csv"]} ∪ list_to_set ["buffer_01.csv"])
             (λ _, inr Demo.frame_30) in
  let poll := RealTime.poll (N:=Demo.numerics) (A:=Demo.artifacts "Blink")
                (E:=Demo.env) p in
  RealTime.reads (RealTime.trace
    (poll (RealTime.startup (list_to_set ["buffer_01.csv"]))).2)
  = ["buffer_02.csv"] ∧
  RealTime.reads (RealTime.trace
    (poll (RealTime.startup (list_to_set ["buffer_01.csv"; "buffer_02.csv"]))).2)
  = [].
Proof.
  cbn zeta. split.
  - destruct (next_recording_is_read (N:=Demo.numerics) (A:=Demo.artifacts "Blink")
                (E:=Demo.env) ["buffer_01.csv"] "buffer"
                (RealTime.MkPoll ({["buffer_02.csv"]} ∪ list_to_set ["buffer_01.csv"])
                        (λ _, inr Demo.frame_30))
                (RealTime.startup (list_to_set ["buffer_01.csv"])))
      as (evs & Htr & Hreads & _).
    + repeat constructor.
    + intros file Hin%list_elem_of_singleton. subst file.
      apply elem_of_list_to_set, list_elem_of_here.
    + reflexivity.
    + rewrite Htr. cbn [RealTime.startup RealTime.trace app]. apply Hreads.
      cbn [RealTime.startup RealTime.processed_files].
      rewrite elem_of_list_to_set. by intros [=]%list_elem_of_singleton.
  - destruct (next_recording_is_read (N:=Demo.numerics) (A:=Demo.artifacts "Blink")
                (E:=Demo.env) ["buffer_01.csv"] "buffer"
                (RealTime.MkPoll ({["buffer_02.csv"]} ∪ list_to_set ["buffer_01.csv"])
                        (λ _, inr Demo.frame_30))
                (RealTime.startup (list_to_set ["buffer_01.csv"; "buffer_02.csv"])))
      as (evs & Htr & _ & Hreads).
    + repeat constructor.
    + intros file Hin%list_elem_of_singleton. subst file.
      apply elem_of_list_to_set, list_elem_of_here.
    + reflexivity.
    + rewrite Htr. cbn [RealTime.startup RealTime.trace app]. apply Hreads.
      cbn [RealTime.startup RealTime.processed_files].
      apply elem_of_list_to_set, list_elem_of_further, list_elem_of_here.
Defined.

(** ** From the classifier's output to the car *)

Section protocol.
Import RealTime Spec Gui.

(** What the classifier prints, the window understands.  For every class
    index in the table of the action model, the line
    "Predicted Action: <label>" that [real_time.py] prints makes
    [handle_classifier_output] show exactly that text and send the command of
    that action, and the command is one that [sendCmdToArduinoCar] passes
    on.  A "Chosen Filter" line with any of the four filter names sets no
    label and sends nothing. *)
Theorem action_lines_reach_the_car (c : Z) (label : string) :
  lookup_action c = inr label →
  let h := handle_line ("Predicted Action: " +:+ label) in
  label_text h = Some ("Predicted Action: " +:+ label) ∧
  (∃ command, command_mapping !! label = Some command ∧
              command_sent h = Some command ∧
              command ∈ accepted_commands ∧ command ≠ EmptyString) ∧
  ∀ k, handle_line ("Chosen Filter: " +:+ kind_name k)
       = Handled ("Chosen Filter: " +:+ kind_name k) None None.
Proof.
  intros Hlabel. apply lookup_action_label in Hlabel. cbn zeta.
  split; [|split].
  - repeat (apply elem_of_cons in Hlabel as [->|Hlabel]; [by vm_compute|]).
    by apply elem_of_nil in Hlabel.
  - repeat (apply elem_of_cons in Hlabel as [->|Hlabel];
            [eexists; split; [by vm_compute|]; split; [by vm_compute|];
             split; [|done];
             repeat first [apply list_elem_of_here|apply list_elem_of_further]|]).
    by apply elem_of_nil in Hlabel.
  - by intros [].
Qed.

End protocol.

Lemma action_lines_reach_the_car_witness :
  Gui.command_sent (Gui.handle_line "Predicted Action: Jaw Clench") = Some "jaw".
Proof.
  destruct (action_lines_reach_the_car 3 "Jaw Clench" eq_refl)
    as (_ & (command & Hcmd & Hsent & _) & _).
  etrans; [exact Hsent|]. rewrite <- Hcmd. reflexivity.
Defined.

(** ** When a recording goes through *)

Section success.
Import Numpy RealTime Spec.
Context {N : Numerics} {A : Artifacts} {E : Env}.





End success.


(** ** The latest file shown in the settings window *)

Section settings.
Import Settings.

Lemma insert_by_key_perm {X} (key : X → nat) (x : X) (l : list X) :
  insert_by_key key x l ≡ₚ x :: l.
Proof.
  induction l as [|y l IH]; [done|]. cbn. case_decide; [done|].
  rewrite IH. apply Permutation_swap.
Qed.

Lemma sort_by_key_perm {X} (key : X → nat) (l : list X) : sort_by_key key l ≡ₚ l.
Proof.
  induction l as [|x l IH]; [done|]. cbn.
  by rewrite insert_by_key_perm, IH.
Qed.

Lemma insert_by_key_sorted {X} (key : X → nat) (x : X) (l : list X) :
  StronglySorted (λ a b, key a ≤ key b) l →
  StronglySorted (λ a b, key a ≤ key b) (insert_by_key key x l).
Proof.
  induction 1 as [|y l Hl IH Hy]; cbn; [repeat constructor|].
  case_decide as Hxy.
  - constructor; [by constructor|]. constructor; [done|].
    eapply Forall_impl; [exact Hy|]. intros z Hz. cbn in *. lia.
  - constructor; [done|]. rewrite insert_by_key_perm. constructor; [lia|done].
Qed.

Lemma sort_by_key_sorted {X} (key : X → nat) (l : list X) :
  StronglySorted (λ a b, key a ≤ key b) (sort_by_key key l).
Proof.
  induction l as [|x l IH]; cbn; [constructor|]. by apply insert_by_key_sorted.
Qed.

Lemma last_of_sorted {X} (key : X → nat) (l : list X) (f : X) :
  StronglySorted (λ a b, key a ≤ key b) l → last l = Some f →
  ∀ g, g ∈ l → key g ≤ key f.
Proof.
  induction 1 as [|y l Hl IH Hy]; [done|].
  destruct l as [|z l].
  - intros [= <-] g Hg%list_elem_of_singleton. by subst.
  - intros Hlast g [->|Hg]%elem_of_cons.
    + assert (f ∈ z :: l) as Hf.
      { apply list_elem_of_lookup. exists (length l).
        rewrite <- Hlast. cbn [last]. by rewrite last_lookup. }
      rewrite Forall_forall in Hy. by apply Hy.
    + by apply IH.
Qed.

(** [_get_latest_buffer_file] returns a buffer file with the highest number.
    On a directory of ASCII file names it returns nothing exactly when the
    directory holds no file whose name starts with "buffer_" and ends with
    ".csv"; otherwise it returns one of these files, and none of them carries
    a higher number (a name without a "buffer_<digits>.csv" part counting as
    0). *)
Theorem latest_buffer_file_has_highest_number (listing : list string) :
  Forall (λ file, Recorder.is_ascii file = true) listing →
  (get_latest_buffer_file listing = None ↔
     ∀ f, f ∈ listing → is_buffer_file f = false) ∧
  ∀ f, get_latest_buffer_file listing = Some f →
       f ∈ listing ∧ is_buffer_file f = true ∧
       ∀ g, g ∈ listing → is_buffer_file g = true → extract_num g ≤ extract_num f.
Proof.
  intros _. unfold get_latest_buffer_file.
  set (files := filter (λ f, is_buffer_file f = true) listing).
  assert (∀ f, f ∈ files ↔ is_buffer_file f = true ∧ f ∈ listing) as Hfiles.
  { intros f. unfold files. by rewrite list_elem_of_filter. }
  assert (files ≠ [] → ∃ f, last (sort_by_key extract_num files) = Some f) as Hsome.
  { intros Hne. destruct (last (sort_by_key extract_num files)) as [f|] eqn:Hlast;
      [by eexists|].
    apply last_None in Hlast.
    pose proof (sort_by_key_perm extract_num files) as Hperm.
    rewrite Hlast in Hperm. by apply Permutation_nil_l in Hperm. }
  split.
  - clearbody files. destruct files as [|f0 files'].
    + split; [|done]. intros _ f Hin.
      destruct (is_buffer_file f) eqn:Hb; [|done].
      assert (f ∈ @nil string) as Hf by by apply Hfiles.
      by apply elem_of_nil in Hf.
    + split.
      * intros Hnone. destruct (Hsome ltac:(done)) as [f Hf]. congruence.
      * intros Hnone. assert (f0 ∈ f0 :: files') as Hin by apply list_elem_of_here.
        apply Hfiles in Hin as [Hb Hin]. by rewrite (Hnone f0 Hin) in Hb.
  - clearbody files. intros f Hlatest.
    assert (last (sort_by_key extract_num files) = Some f) as Hlast.
    { by destruct files. }
    assert (f ∈ files) as Hf.
    { rewrite <- (sort_by_key_perm extract_num files).
      apply list_elem_of_lookup. eexists. rewrite <- Hlast. by rewrite last_lookup. }
    apply Hfiles in Hf as [Hb Hin]. split; [done|]. split; [done|].
    intros g Hg Hgb.
    apply (last_of_sorted extract_num (sort_by_key extract_num files));
      [apply sort_by_key_sorted|done|].
    rewrite sort_by_key_perm. by apply Hfiles.
Qed.

End settings.

Lemma latest_buffer_file_has_highest_number_witness :
  Settings.get_latest_buffer_file
    ["buffer_02.csv"; "buffer_10.csv"; "notes.txt"; "buffer_9.csv"]
  = Some "buffer_10.csv" ∧
  Settings.extract_num "buffer_9.csv" ≤ Settings.extract_num "buffer_10.csv".
Proof.
  split; [reflexivity|].
  apply (proj2 (latest_buffer_file_has_highest_number
                  ["buffer_02.csv"; "buffer_10.csv"; "notes.txt"; "buffer_9.csv"]
                  ltac:(repeat constructor))
           "buffer_10.csv" eq_refl).
  - repeat first [apply list_elem_of_here|apply list_elem_of_further].
  - reflexivity.
Defined.
